(** * AMI430 magnet power supply driver: ramp control and safety interlocks

    A shallow embedding of [qcodes/instrument_drivers/american_magnetics/AMI430.py].

    The driver talks to the instrument through the VISA link of its base
    class ([ask], [write]) and waits with [time.sleep].  The link is an
    interface here ([Link]); a driver method is a function from the
    instrument's state to an outcome that carries the value returned, the
    instrument's new state and the events the call produced, in order.
    The polling loops of the driver have no bound in the source; they take
    a fuel argument, and [OutOfFuel] is the outcome of a loop still running
    when the fuel is spent; it carries the events produced until then. *)

From Stdlib Require Import String Ascii List ZArith NArith Bool Arith Lia DecimalString.
From Stdlib Require Import Permutation.
Import ListNotations.
Open Scope string_scope.

Set Implicit Arguments.

(** ** Numbers

    The values the driver formats into commands and parses from replies are
    Python numbers.  The driver uses ['{}'.format(x)], [float(s)], the
    product of the constructor and the bounds of the validators. *)

Class PyNumber (number : Type) := {
  format : number -> string;           (* '{}'.format(x) *)
  float : string -> option number;     (* float(s); None is a ValueError *)
  mul : number -> number -> number;
  opp : number -> number;
  abs : number -> number;
  leb : number -> number -> bool;
  ltb : number -> number -> bool;
  (* a value whose magnitude exceeds [hi] is outside [-hi, hi] *)
  abs_above : forall hi v, ltb hi (abs v) = true ->
                           leb (opp hi) v && leb v hi = false
}.

(** Python's [int]: decimal formatting, [float] on integer literals, and
    the order of the integers. *)
#[export] Instance PyInt : PyNumber Z.
Proof.
  refine {| format := fun z => NilZero.string_of_int (Z.to_int z);
            float := fun s => option_map Z.of_int (NilZero.int_of_string s);
            mul := Z.mul;
            opp := Z.opp;
            abs := Z.abs;
            leb := Z.leb;
            ltb := Z.ltb |}.
  intros hi v H. apply Z.ltb_lt in H.
  apply andb_false_iff.
  destruct (Z.leb_spec (- hi) v); [right | left; reflexivity].
  apply Z.leb_gt. lia.
Defined.

(** ** The instrument link *)

Inductive Event : Type :=
| Ask (cmd reply : string)     (* self.ask(cmd) answered reply *)
| Write (cmd : string)         (* self.write(cmd) *)
| Sleep (ms : N).              (* time.sleep, in milliseconds *)

Inductive Exn : Type :=
| KeyError (reply : string)        (* a reply outside a val_mapping *)
| ValueError (text : string)       (* float() of a malformed text *)
| AttributeError (name : string)   (* a parameter that was never added *)
| OutOfRange.                      (* a value refused by a validator *)

Class Link (HW : Type) := {
  link_ask : string -> HW -> string * HW;
  link_write : string -> HW -> HW;
  link_sleep : N -> HW -> HW
}.

(** [str.split(sep)] for a one-character separator. *)
Fixpoint split (sep : ascii) (s : string) : list string :=
  match s with
  | EmptyString => [EmptyString]
  | String c rest =>
      if Ascii.eqb c sep then EmptyString :: split sep rest
      else match split sep rest with
           | [] => [String c EmptyString]
           | w :: ws => String c w :: ws
           end
  end.

(** ** Ramping states

    The keys of the [ramping_state] mapping, in the order of their codes:
    ['ramping'], ['holding'], ['paused'], ['manual up'], ['manual down'],
    ['zeroing current'], ['quench detected'], ['at zero current'],
    ['heating switch'], ['cooling switch']. *)

Inductive RampState : Type :=
| Ramping | Holding | Paused | ManualUp | ManualDown
| ZeroingCurrent | QuenchDetected | AtZeroCurrent
| HeatingSwitch | CoolingSwitch.

Definition RampState_eqb (a b : RampState) : bool :=
  match a, b with
  | Ramping, Ramping | Holding, Holding | Paused, Paused
  | ManualUp, ManualUp | ManualDown, ManualDown
  | ZeroingCurrent, ZeroingCurrent | QuenchDetected, QuenchDetected
  | AtZeroCurrent, AtZeroCurrent | HeatingSwitch, HeatingSwitch
  | CoolingSwitch, CoolingSwitch => true
  | _, _ => false
  end.

(** The [val_mapping] tables of [__init__]. *)
Definition bool_val_mapping : list (bool * string) :=
  [(false, "0"); (true, "1")].

Definition ramping_state_val_mapping : list (RampState * Z) :=
  [(Ramping, 1); (Holding, 2); (Paused, 3); (ManualUp, 4); (ManualDown, 5);
   (ZeroingCurrent, 6); (QuenchDetected, 7); (AtZeroCurrent, 8);
   (HeatingSwitch, 9); (CoolingSwitch, 10)]%Z.

(** Modelled from the spec: the parameter machinery of qcodes that decodes
    a reply through a [val_mapping] is not among the sources.  The State
    Reader "decodes them into typed values": a reply is mapped back to the
    key whose value it is. *)
Definition decode_text {A : Type} (m : list (A * string)) (reply : string) : option A :=
  option_map fst (find (fun kv => String.eqb (snd kv) reply) m).

(** Modelled from the spec: [STATE?] answers an "integer 1-10 mapped to
    RampState (1=Ramping ... 10=CoolingSwitch)". *)
Definition decode_code {A : Type} (m : list (A * Z)) (reply : string) : option A :=
  match NilZero.int_of_string reply with
  | Some i => option_map fst (find (fun kv => Z.eqb (snd kv) (Z.of_int i)) m)
  | None => None
  end.

Definition decode_flag : string -> option bool := decode_text bool_val_mapping.
Definition decode_state : string -> option RampState := decode_code ramping_state_val_mapping.

(** ** Outcomes and the driver monad *)

Inductive Result (HW A : Type) : Type :=
| Done (a : A) (h : HW) (tr : list Event)
| Raise (e : Exn) (h : HW) (tr : list Event)
| OutOfFuel (tr : list Event).

Arguments Done {HW A} a h tr.
Arguments Raise {HW A} e h tr.
Arguments OutOfFuel {HW A} tr.

(** The events of a trace that are commands written to the instrument. *)
Fixpoint writes (tr : list Event) : list string :=
  match tr with
  | [] => []
  | Write cmd :: rest => cmd :: writes rest
  | _ :: rest => writes rest
  end.

Definition is_ask (e : Event) : bool :=
  match e with Ask _ _ => true | _ => false end.

Definition trace_of {HW A : Type} (r : Result HW A) : list Event :=
  match r with
  | Done _ _ tr | Raise _ _ tr | OutOfFuel tr => tr
  end.

Declare Scope driver_scope.
Delimit Scope driver_scope with driver.

(** A driver method: from the instrument's state to an outcome. *)
Definition Prog (HW A : Type) : Type := HW -> Result HW A.

Section Monad.
Context {HW : Type}.

Local Abbreviation M := (Prog HW).

Definition ret {A : Type} (a : A) : M A := fun h => Done a h [].

Definition raise {A : Type} (e : Exn) : M A := fun h => Raise e h [].

(** The outcome [r] after the events [t1]. *)
Definition after {A : Type} (t1 : list Event) (r : Result HW A) : Result HW A :=
  match r with
  | Done a h t2 => Done a h (t1 ++ t2)
  | Raise e h t2 => Raise e h (t1 ++ t2)
  | OutOfFuel t2 => OutOfFuel (t1 ++ t2)
  end.

Definition bind {A B : Type} (m : M A) (k : A -> M B) : M B :=
  fun h =>
    match m h with
    | Done a h1 t1 => after t1 (k a h1)
    | Raise e h1 t1 => Raise e h1 t1
    | OutOfFuel t1 => OutOfFuel t1
    end.
End Monad.

Notation "x <- m ;; k" := (bind m (fun x => k))
  (at level 61, m at next level, right associativity) : driver_scope.
Notation "m ;; k" := (bind m (fun _ => k))
  (at level 61, right associativity) : driver_scope.
Open Scope driver_scope.

Section Driver.
Context {HW : Type} {link : Link HW}.
Context {number : Type} {num : PyNumber number}.

Local Abbreviation M := (Prog HW).

(** *** Link operations *)

Definition ask (cmd : string) : M string :=
  fun h => let (reply, h') := link_ask cmd h in Done reply h' [Ask cmd reply].

Definition write (cmd : string) : M unit :=
  fun h => Done tt (link_write cmd h) [Write cmd].

Definition sleep (ms : N) : M unit :=
  fun h => Done tt (link_sleep ms h) [Sleep ms].

(** [while cond: body], at most [fuel] evaluations of [cond]. *)
Fixpoint while_ (fuel : nat) (cond : M bool) (body : M unit) : M unit :=
  match fuel with
  | O => fun _ => OutOfFuel []
  | S fuel' =>
      c <- cond ;;
      if c then body ;; while_ fuel' cond body else ret tt
  end.

(** *** The instrument object *)

Record AMI430 : Type := {
  _coil_constant : number;
  _current_rating : number;
  _current_ramp_limit : number;
  _persistent_switch : bool;
  _field_rating : number
}.

(** [__init__]: the attributes (the parameters it adds follow). *)
Definition init (coil_constant current_rating current_ramp_limit : number)
    (persistent_switch : bool) : AMI430 :=
  {| _coil_constant := coil_constant;
     _current_rating := current_rating;
     _current_ramp_limit := current_ramp_limit;
     _persistent_switch := persistent_switch;
     _field_rating := mul coil_constant current_rating |}.

(** Modelled from the spec: reading a parameter declared with [get_cmd]
    and [val_mapping] (the qcodes parameter class is not among the
    sources) asks the command and decodes the reply; a reply outside the
    mapping is an error. *)
Definition get_mapped {A : Type} (get_cmd : string)
    (decode : string -> option A) : M A :=
  reply <- ask get_cmd ;;
  match decode reply with
  | Some v => ret v
  | None => raise (KeyError reply)
  end.

Definition is_quenched : M bool := get_mapped "QU?" decode_flag.

Definition ramping_state : M RampState := get_mapped "STATE?" decode_state.

(** The two parameters that exist only with a persistent switch. *)
Definition in_persistent_mode (self : AMI430) : M bool :=
  if _persistent_switch self then get_mapped "PERS?" decode_flag
  else raise (AttributeError "in_persistent_mode").

Definition persistent_switch_heater_enabled (self : AMI430) : M bool :=
  if _persistent_switch self then get_mapped "PS?" decode_flag
  else raise (AttributeError "persistent_switch_heater_enabled").

(** [add_function('ramp', call_cmd='RAMP')] and ['pause']: the command
    is written to the instrument. *)
Definition ramp : M unit := write "RAMP".
Definition pause : M unit := write "PAUSE".

(** *** [_can_start_ramping] *)

Definition _can_start_ramping (self : AMI430) : M bool :=
  q <- is_quenched ;;
  if q then ret false
  else
    p <- (if _persistent_switch self then in_persistent_mode self
          else ret false) ;;
    if p then ret false
    else
      state <- ramping_state ;;
      if RampState_eqb state Ramping then
        if negb (_persistent_switch self) then ret true
        else
          e <- persistent_switch_heater_enabled self ;;
          if e then ret true else ret false
      else if existsb (RampState_eqb state) [Holding; Paused; AtZeroCurrent]
      then ret true
      else ret false.

(** *** [_set_persistent_switch_heater] *)

(** The condition of the polling loops, [self.ramping_state() == target]. *)
Definition state_is (target : RampState) : M bool :=
  state <- ramping_state ;; ret (RampState_eqb state target).

Definition _set_persistent_switch_heater (fuel : nat) (value : bool) : M unit :=
  if value then
    write "PS 1" ;;
    sleep 500 ;;
    while_ fuel (state_is HeatingSwitch) (sleep 300)
  else
    write "PS 0" ;;
    sleep 500 ;;
    while_ fuel (state_is CoolingSwitch) (sleep 300).

(** Modelled from the spec: calling the parameter with a value,
    [persistent_switch_heater_enabled(True)], goes through the qcodes
    parameter class, which is not among the sources; the Ramp Initiator
    "calls the Heater Sequencer to enable it", the parameter's [set_cmd]. *)
Definition persistent_switch_heater_enabled_set (self : AMI430)
    (fuel : nat) (value : bool) : M unit :=
  if _persistent_switch self then _set_persistent_switch_heater fuel value
  else raise (AttributeError "persistent_switch_heater_enabled").

(** The instrument seen by a polling loop: [poll_hw k h] is the
    instrument after [k] rounds of asking [STATE?] and sleeping 0.3 s,
    [poll_reply k h] the reply to the next [STATE?], and [poll_trace k h]
    the events of those [k] rounds. *)
Definition poll_step (h : HW) : HW :=
  link_sleep 300 (snd (link_ask "STATE?" h)).

Fixpoint poll_hw (k : nat) (h : HW) : HW :=
  match k with
  | O => h
  | S k' => poll_hw k' (poll_step h)
  end.

Definition poll_reply (k : nat) (h : HW) : string :=
  fst (link_ask "STATE?" (poll_hw k h)).

Fixpoint poll_trace (k : nat) (h : HW) : list Event :=
  match k with
  | O => []
  | S k' =>
      Ask "STATE?" (fst (link_ask "STATE?" h)) :: Sleep 300
        :: poll_trace k' (poll_step h)
  end.

(** *** [_set_field] and [_ramp_to] *)

Definition _set_field (self : AMI430) (fuel : nat) (value : number) : M unit :=
  ok <- _can_start_ramping self ;;
  if ok then
    pause ;;
    write ("CONF:FIELD:TARG " ++ format value) ;;
    (if _persistent_switch self then
       e <- persistent_switch_heater_enabled self ;;
       if negb e then persistent_switch_heater_enabled_set self fuel true
       else ret tt
     else ret tt) ;;
    ramp ;;
    sleep 500 ;;
    while_ fuel (state_is Ramping) (sleep 300) ;;
    sleep 2000 ;;
    state <- ramping_state ;;
    if RampState_eqb state Holding then pause else ret tt
  else ret tt.

Definition _ramp_to (self : AMI430) (fuel : nat) (value : number) : M unit :=
  ok <- _can_start_ramping self ;;
  if ok then
    pause ;;
    write ("CONF:FIELD:TARG " ++ format value) ;;
    (if _persistent_switch self then
       e <- persistent_switch_heater_enabled self ;;
       if negb e then persistent_switch_heater_enabled_set self fuel true
       else ret tt
     else ret tt) ;;
    ramp
  else ret tt.

(** *** [_get_ramp_rate] and [_set_ramp_rate] *)

Definition _get_ramp_rate : M number :=
  reply <- ask "RAMP:RATE:FIELD:1?" ;;
  let results := split "," reply in
  match float (hd EmptyString results) with
  | Some v => ret v
  | None => raise (ValueError (hd EmptyString results))
  end.

Definition _set_ramp_rate (self : AMI430) (rate : number) : M unit :=
  let cmd := "CONF:RAMP:RATE:FIELD 1," ++ format rate ++ format (_field_rating self) in
  write cmd.

(** *** The public operations

    Modelled from the spec: the validators of qcodes and the code that
    runs them before a parameter's [set_cmd] or a function's [call_cmd]
    are not among the sources.  [__init__] gives [field] and [ramp_to]
    the validator [Numbers(-self._field_rating, self._field_rating)];
    the specification has the target validated first, "fail with
    OutOfRange otherwise". *)
Definition Numbers (min_value max_value value : number) : bool :=
  leb min_value value && leb value max_value.

Definition field_vals (self : AMI430) : number -> bool :=
  Numbers (opp (_field_rating self)) (_field_rating self).

(** [field(value)]: the blocking operation. *)
Definition field_set (self : AMI430) (fuel : nat) (value : number) : M unit :=
  if field_vals self value then _set_field self fuel value
  else raise OutOfRange.

(** [ramp_to(value)]: the non-blocking operation. *)
Definition ramp_to (self : AMI430) (fuel : nat) (value : number) : M unit :=
  if field_vals self value then _ramp_to self fuel value
  else raise OutOfRange.

(** *** The steps of the specification

    The Heater Sequencer's command and transition state, the Ramp
    Initiator once the gate has allowed the ramp (steps 3 to 6 of its
    contract) and the Ramp Monitor, written from the specification's
    words; the methods are compared with them below. *)
Definition heater_cmd (enable : bool) : string :=
  if enable then "PS 1" else "PS 0".

Definition transition_state (enable : bool) : RampState :=
  if enable then HeatingSwitch else CoolingSwitch.

(** The instrument when the polling of [setHeater] starts. *)
Definition heater_started (enable : bool) (h : HW) : HW :=
  link_sleep 500 (link_write (heater_cmd enable) h).

Definition target_cmd (value : number) : string :=
  "CONF:FIELD:TARG " ++ format value.

(** The instrument once the pause and the target have been written. *)
Definition targeted (value : number) (h : HW) : HW :=
  link_write (target_cmd value) (link_write "PAUSE" h).

(** A persistent switch is present and its heater reads as not enabled. *)
Definition heater_needed (self : AMI430) (h : HW) : bool :=
  _persistent_switch self &&
  match decode_flag (fst (link_ask "PS?" h)) with
  | Some false => true
  | Some true | None => false
  end.

(** The writes of the Ramp Initiator, in order. *)
Definition ramp_writes (value : number) (enable_heater : bool) : list string :=
  ["PAUSE"; target_cmd value]
    ++ (if enable_heater then ["PS 1"] else []) ++ ["RAMP"].

Definition start_ramp (self : AMI430) (fuel : nat) (value : number) : M unit :=
  write "PAUSE" ;;
  write (target_cmd value) ;;
  (if _persistent_switch self then
     e <- persistent_switch_heater_enabled self ;;
     if e then ret tt else _set_persistent_switch_heater fuel true
   else ret tt) ;;
  write "RAMP".

(** The instrument when the Ramp Monitor, started at [h], reads the state
    again after a loop of [k] rounds, and the events up to that reading. *)
Definition monitor_settled (k : nat) (h : HW) : HW :=
  link_sleep 2000 (snd (link_ask "STATE?" (poll_hw k (link_sleep 500 h)))).

Definition monitor_polls (k : nat) (h : HW) : list Event :=
  Sleep 500 :: poll_trace k (link_sleep 500 h)
    ++ [Ask "STATE?" (poll_reply k (link_sleep 500 h)); Sleep 2000;
        Ask "STATE?" (fst (link_ask "STATE?" (monitor_settled k h)))].

Definition ramp_monitor (fuel : nat) : M unit :=
  sleep 500 ;;
  while_ fuel (state_is Ramping) (sleep 300) ;;
  sleep 2000 ;;
  state <- ramping_state ;;
  match state with
  | Holding => write "PAUSE"
  | _ => ret tt
  end.

End Driver.

Arguments AMI430 : clear implicits.

(** ** The Safety Gate of the specification *)

Record SafetyStatus : Type := {
  quenched : bool;
  persistentMode : bool;
  heaterEnabled : bool;
  rampState : RampState
}.

(** The decision table of the specification, first match wins. *)
Definition canStartRamping (status : SafetyStatus) (persistentSwitchPresent : bool) : bool :=
  if quenched status then false
  else if persistentSwitchPresent && persistentMode status then false
  else match rampState status with
       | Ramping => negb persistentSwitchPresent || heaterEnabled status
       | Holding | Paused | AtZeroCurrent => true
       | ManualUp | ManualDown | ZeroingCurrent | QuenchDetected
       | HeatingSwitch | CoolingSwitch => false
       end.

(** A snapshot agrees with an event when the event is not a query of one of
    the four facts, or is one and its reply decodes to the snapshot's value. *)
Definition reads_agree (status : SafetyStatus) (e : Event) : Prop :=
  match e with
  | Ask cmd reply =>
      if cmd =? "QU?" then decode_flag reply = Some (quenched status)
      else if cmd =? "PERS?" then decode_flag reply = Some (persistentMode status)
      else if cmd =? "PS?" then decode_flag reply = Some (heaterEnabled status)
      else if cmd =? "STATE?" then decode_state reply = Some (rampState status)
      else True
  | Write _ | Sleep _ => True
  end.

(** The instrument states reached from [h] by queries alone. *)
Inductive queried_from {HW : Type} {link : Link HW} (h : HW) : HW -> Prop :=
| queried_here : queried_from h h
| queried_next (x : HW) (cmd : string) :
    queried_from h x -> queried_from h (snd (link_ask cmd x)).

(** The instrument at [h] reports the snapshot: as long as it is only
    queried, its replies agree with it. *)
Definition reports {HW : Type} {link : Link HW} (status : SafetyStatus) (h : HW) : Prop :=
  forall (x : HW) (cmd : string),
    queried_from h x -> reads_agree status (Ask cmd (fst (link_ask cmd x))).

(** A query of the quench flag or of the ramping state. *)
Definition quench_or_state_query (e : Event) : bool :=
  match e with
  | Ask cmd _ => (cmd =? "QU?") || (cmd =? "STATE?")
  | Write _ | Sleep _ => false
  end.

(** ** A scripted instrument

    An instrument for the examples: fixed replies to the flag queries, a
    script of successive [STATE?] replies whose last entry repeats, and a
    ramp-rate register that keeps the fields that follow the segment number
    of the last [CONF:RAMP:RATE:FIELD] command. *)

Record Sim : Type := {
  sim_qu : string;
  sim_pers : string;
  sim_ps : string;
  sim_state : list string;
  sim_rate : string
}.

Definition sim_ask (cmd : string) (s : Sim) : string * Sim :=
  if cmd =? "QU?" then (sim_qu s, s)
  else if cmd =? "PERS?" then (sim_pers s, s)
  else if cmd =? "PS?" then (sim_ps s, s)
  else if cmd =? "RAMP:RATE:FIELD:1?" then (sim_rate s, s)
  else if cmd =? "STATE?" then
    match sim_state s with
    | [] => (EmptyString, s)
    | [r] => (r, s)
    | r :: rest =>
        (r, {| sim_qu := sim_qu s; sim_pers := sim_pers s; sim_ps := sim_ps s;
               sim_state := rest; sim_rate := sim_rate s |})
    end
  else (EmptyString, s).

Definition sim_write (cmd : string) (s : Sim) : Sim :=
  if cmd =? "PS 1" then
    {| sim_qu := sim_qu s; sim_pers := sim_pers s; sim_ps := "1";
       sim_state := sim_state s; sim_rate := sim_rate s |}
  else if cmd =? "PS 0" then
    {| sim_qu := sim_qu s; sim_pers := sim_pers s; sim_ps := "0";
       sim_state := sim_state s; sim_rate := sim_rate s |}
  else if String.prefix "CONF:RAMP:RATE:FIELD " cmd then
    let args := substring 21 (String.length cmd - 21) cmd in
    {| sim_qu := sim_qu s; sim_pers := sim_pers s; sim_ps := sim_ps s;
       sim_state := sim_state s;
       sim_rate := String.concat "," (tl (split "," args)) |}
  else s.

#[export] Instance SimLink : Link Sim := {
  link_ask := sim_ask;
  link_write := sim_write;
  link_sleep := fun _ s => s
}.

Definition sim (qu pers ps : string) (states : list string) : Sim :=
  {| sim_qu := qu; sim_pers := pers; sim_ps := ps; sim_state := states;
     sim_rate := "0,0" |}.

Definition magnet (persistent_switch : bool) : AMI430 Z :=
  init 1%Z 2%Z 1%Z persistent_switch.

(** ** More of the driver *)

(** The commands a trace asks, in order. *)
Fixpoint asked (tr : list Event) : list string :=
  match tr with
  | [] => []
  | Ask cmd _ :: rest => cmd :: asked rest
  | _ :: rest => asked rest
  end.

(** A poll of the ramping state or the sleep of 0.3 s between two
    polls. *)
Definition is_poll (e : Event) : bool :=
  match e with
  | Ask cmd _ => cmd =? "STATE?"
  | Sleep ms => N.eqb ms 300
  | Write _ => false
  end.

(** The reply decodes to the flag [b]; the reply decodes to a state that
    satisfies [p]. *)
Definition flag_is (b : bool) (reply : string) : bool :=
  match decode_flag reply with
  | Some b' => Bool.eqb b b'
  | None => false
  end.

Definition state_in (p : RampState -> bool) (reply : string) : bool :=
  match decode_state reply with
  | Some state => p state
  | None => false
  end.

(** The readings after which [_can_start_ramping] answers [True]: the
    quench flag false; with a persistent switch, the persistent mode false;
    then the state holding, paused or at zero current, or the state
    ramping, and with a persistent switch the heater enabled. *)
Definition permits (persistent_switch : bool) (tg : list Event) : bool :=
  match persistent_switch, tg with
  | false, [Ask q r1; Ask s r3] =>
      (q =? "QU?") && flag_is false r1
      && (s =? "STATE?")
      && state_in (fun st => existsb (RampState_eqb st)
                               [Ramping; Holding; Paused; AtZeroCurrent]) r3
  | true, [Ask q r1; Ask p r2; Ask s r3] =>
      (q =? "QU?") && flag_is false r1
      && (p =? "PERS?") && flag_is false r2
      && (s =? "STATE?")
      && state_in (fun st => existsb (RampState_eqb st)
                               [Holding; Paused; AtZeroCurrent]) r3
  | true, [Ask q r1; Ask p r2; Ask s r3; Ask e r4] =>
      (q =? "QU?") && flag_is false r1
      && (p =? "PERS?") && flag_is false r2
      && (s =? "STATE?") && state_in (fun st => RampState_eqb st Ramping) r3
      && (e =? "PS?") && flag_is true r4
  | _, _ => false
  end.

(** The queries [_can_start_ramping] can have asked when it ends. *)
Definition gate_queries (persistent_switch : bool) : list (list string) :=
  if persistent_switch then
    [["QU?"]; ["QU?"; "PERS?"]; ["QU?"; "PERS?"; "STATE?"];
     ["QU?"; "PERS?"; "STATE?"; "PS?"]]
  else [["QU?"]; ["QU?"; "STATE?"]].

(** [c in s] for a character. *)
Fixpoint contains (c : ascii) (s : string) : bool :=
  match s with
  | EmptyString => false
  | String c' rest => Ascii.eqb c' c || contains c rest
  end.

(** ** The two-magnet driver [AMI430_2D]

    The virtual instrument holds two magnets, each behind a link of its
    own; a method runs on the pair of their states.  [np.hypot] and
    [np.radians] are taken as they come. *)

(** Modelled from the spec: the [field] parameter of a magnet is declared
    with [get_cmd='FIELD:MAG?'] and [get_parser=float]; the qcodes
    parameter class that asks the command and parses the reply is not
    among the sources ("current field reading (float, T)"). *)
Definition field_get {HW : Type} {link : Link HW} {number : Type}
    {num : PyNumber number} : Prog HW number :=
  reply <- ask "FIELD:MAG?" ;;
  match float reply with
  | Some v => ret v
  | None => raise (ValueError reply)
  end.

Section Driver2D.
Context {HWx HWy : Type} {link_x : Link HWx} {link_y : Link HWy}.
Context {number : Type} {num : PyNumber number}.
Variable hypot : number -> number -> number.
Variable radians : number -> number.

(** A method of [magnet_x], of [magnet_y], run on the pair. *)
Definition on_x {A : Type} (m : Prog HWx A) : Prog (HWx * HWy) A :=
  fun s =>
    match m (fst s) with
    | Done a hx tr => Done a (hx, snd s) tr
    | Raise e hx tr => Raise e (hx, snd s) tr
    | OutOfFuel tr => OutOfFuel tr
    end.

Definition on_y {A : Type} (m : Prog HWy A) : Prog (HWx * HWy) A :=
  fun s =>
    match m (snd s) with
    | Done a hy tr => Done a (fst s, hy) tr
    | Raise e hy tr => Raise e (fst s, hy) tr
    | OutOfFuel tr => OutOfFuel tr
    end.

Definition _get_field_2D : Prog (HWx * HWy) number :=
  x <- on_x field_get ;;
  y <- on_y field_get ;;
  ret (hypot x y).

Definition _set_alpha (alpha : number) : Prog (HWx * HWy) unit :=
  field <- _get_field_2D ;;
  let alpha := radians alpha in
  ret tt.

(** The methods whose body is [pass]. *)
Definition _is_within_field_limit : Prog (HWx * HWy) unit := ret tt.
Definition _get_alpha : Prog (HWx * HWy) unit := ret tt.
Definition _set_field_2D (field : number) : Prog (HWx * HWy) unit := ret tt.

End Driver2D.
(** ** The QDac driver: [qcodes/instrument_drivers/qdev/qdac.py]

    The status reader of the digital-analog converter: [read_state] and
    [_get_status], with the attributes they keep on the driver object
    ([version], [_status], [_status_ts]), the instrument behind
    [self.ask] and [self.read], and the clock behind [datetime.now()]. *)

Module QDac.

(** *** Python's strings *)

(** [str.isspace] on one character, the characters being code points
    below 256. *)
Definition is_space (c : ascii) : bool :=
  let n := nat_of_ascii c in
  (((9 <=? n) && (n <=? 13)) || ((28 <=? n) && (n <=? 32))
   || (n =? 133) || (n =? 160))%nat.

Fixpoint lstrip_by (p : ascii -> bool) (s : string) : string :=
  match s with
  | EmptyString => EmptyString
  | String c rest => if p c then lstrip_by p rest else s
  end.

Fixpoint rstrip_by (p : ascii -> bool) (s : string) : string :=
  match s with
  | EmptyString => EmptyString
  | String c rest =>
      match rstrip_by p rest with
      | EmptyString => if p c then EmptyString else String c EmptyString
      | kept => String c kept
      end
  end.

(** [s.strip()] and [s.strip(chars)]. *)
Definition strip (s : string) : string :=
  rstrip_by is_space (lstrip_by is_space s).

Definition strip_chars (chars : string) (s : string) : string :=
  rstrip_by (fun c => contains c chars) (lstrip_by (fun c => contains c chars) s).

(** [s.lower()], on code points below 256. *)
Definition lower_char (c : ascii) : ascii :=
  let n := nat_of_ascii c in
  if (((65 <=? n) && (n <=? 90))
      || ((192 <=? n) && (n <=? 222) && negb (n =? 215)))%nat
  then ascii_of_nat (n + 32) else c.

Fixpoint lower (s : string) : string :=
  match s with
  | EmptyString => EmptyString
  | String c rest => String (lower_char c) (lower rest)
  end.

(** [s.split(sep)] for a separator of one character or more: the
    occurrences of [sep] are found from the left and do not overlap;
    [skip] counts the characters of an occurrence still to pass. *)
Fixpoint split_from (sep : string) (skip : nat) (s : string) : list string :=
  match s with
  | EmptyString => [EmptyString]
  | String c rest =>
      match skip with
      | S k => split_from sep k rest
      | O =>
          if String.prefix sep s
          then EmptyString :: split_from sep (String.length sep - 1) rest
          else match split_from sep 0 rest with
               | [] => [String c EmptyString]
               | w :: ws => String c w :: ws
               end
      end
  end.

Definition split_str (sep : string) (s : string) : list string :=
  split_from sep 0 s.

Definition tab : ascii := "009"%char.
Definition cr_lf : string := String "013"%char (String "010"%char EmptyString).

(** *** The driver object, the instrument and the clock *)

(** The class attributes. *)
Definition num_chans : Z := 48.

Definition voltage_range_status : list (string * Z) :=
  [("X 1", 10%Z); ("X 0.1", 1%Z)].

(** [self.chan_range = range(1, 1 + self.num_chans)], and membership in it. *)
Definition chan_range : list Z := map Z.of_nat (seq 1 48).

Definition in_chan_range (chan : Z) : bool :=
  (1 <=? chan)%Z && (chan <? 1 + num_chans)%Z.

(** What the driver raises.  [ValueError] carries the message of a
    [raise] of the driver; the next three are the [ValueError]s of a
    failed unpacking, of [int()] and of [float()]; [KeyError] is a missing
    dictionary key, [KeyErrorChan] the [KeyError] of [set.remove]. *)
Inductive QExn : Type :=
| ValueError (msg : string)
| UnpackError (fields : nat)
| IntError (text : string)
| FloatError (text : string)
| KeyError (key : string)
| KeyErrorChan (chan : Z)
| IndexError
| AttributeError (name : string).

Inductive QEvent : Type :=
| Asked (cmd reply : string)    (* self.ask(cmd) *)
| ReadLine (reply : string)     (* self.read() *)
| Slept (ms : N)                (* time.sleep *)
| Clock (t : Z)                 (* datetime.now(), in microseconds *)
| Printed (text : string)       (* print *)
| Cleared.                      (* self.visa_handle.clear() *)

(** The instrument and the clock. *)
Class Visa (HW : Type) := {
  visa_ask : string -> HW -> string * HW;
  visa_read : HW -> string * HW;
  visa_sleep : N -> HW -> HW;
  visa_now : HW -> Z * HW;
  visa_clear : HW -> HW
}.

(** A driver method runs on a world (the instrument, the attributes of
    the driver object, the events so far) and returns, raises, or is
    still in a loop when its fuel is spent. *)
Inductive Res (W A : Type) : Type :=
| Returned (a : A) (w : W)
| Raised (e : QExn) (w : W)
| Unfinished (w : W).

Arguments Returned {W A} a w.
Arguments Raised {W A} e w.
Arguments Unfinished {W A} w.

Definition ret {W A : Type} (a : A) : W -> Res W A := fun w => Returned a w.

Definition raise {W A : Type} (e : QExn) : W -> Res W A := fun w => Raised e w.

Definition bind {W A B : Type} (m : W -> Res W A) (k : A -> W -> Res W B)
    : W -> Res W B :=
  fun w =>
    match m w with
    | Returned a w1 => k a w1
    | Raised e w1 => Raised e w1
    | Unfinished w1 => Unfinished w1
    end.

Definition world_of {W A : Type} (r : Res W A) : W :=
  match r with
  | Returned _ w | Raised _ w | Unfinished w => w
  end.

Declare Scope qdac_scope.
Notation "x <~ m ;; k" := (bind m (fun x => k))
  (at level 61, m at next level, right associativity) : qdac_scope.
Notation "m ~~ k" := (bind m (fun _ => k))
  (at level 61, right associativity) : qdac_scope.
Local Open Scope qdac_scope.

Section Driver.
Context {HW : Type} {visa : Visa HW}.
Context {number : Type} {num : PyNumber number}.

(** Python's [int()] on a string; [None] is its [ValueError]. *)
Variable int_ : string -> option Z.

(** One entry of the status list: a dictionary with the keys ['v'],
    ['vrange'] and ['irange']; [None] is the empty dictionary. *)
Record ChanStatus : Type := {
  status_v : number;
  status_vrange : Z;
  status_irange : string
}.

Definition Table : Type := list (option ChanStatus).

(** What [read_state] returns: the value under one of the three keys. *)
Inductive Value : Type :=
| V (x : number)
| VRange (r : Z)
| IRange (s : string).

(** The attributes of the driver object; [None] is an attribute that has
    not been set.  [max_status_age] is the class attribute, in seconds. *)
Record Attrs : Type := {
  version : option string;
  _status : option Table;
  _status_ts : option Z;
  max_status_age : Z
}.

(** After [__init__]: neither [version] nor the status attributes are
    set. *)
Definition fresh : Attrs :=
  {| version := None; _status := None; _status_ts := None;
     max_status_age := 1 |}.

Record World : Type := {
  hw : HW;
  self : Attrs;
  log : list QEvent
}.

Local Abbreviation M := (fun A => World -> Res World A).

Definition emit (e : QEvent) (h : HW) (w : World) : World :=
  {| hw := h; self := self w; log := log w ++ [e] |}.

Definition set_self (a : Attrs) (w : World) : World :=
  {| hw := hw w; self := a; log := log w |}.

Definition ask (cmd : string) : M string :=
  fun w => let (reply, h) := visa_ask cmd (hw w) in
           Returned reply (emit (Asked cmd reply) h w).

(** [read]: [return self.visa_handle.read()]. *)
Definition read : M string :=
  fun w => let (reply, h) := visa_read (hw w) in
           Returned reply (emit (ReadLine reply) h w).

Definition sleep (ms : N) : M unit :=
  fun w => Returned tt (emit (Slept ms) (visa_sleep ms (hw w)) w).

Definition now : M Z :=
  fun w => let (t, h) := visa_now (hw w) in Returned t (emit (Clock t) h w).

Definition print (text : string) : M unit :=
  fun w => Returned tt (emit (Printed text) (hw w) w).

Definition get_self : M Attrs := fun w => Returned (self w) w.

Definition put_self (a : Attrs) : M unit := fun w => Returned tt (set_self a w).

(** Reading an attribute that may not be set. *)
Definition attr {A : Type} (name : string) (field : Attrs -> option A) : M A :=
  fun w =>
    match field (self w) with
    | Some x => Returned x w
    | None => Raised (AttributeError name) w
    end.

(** [self.visa_handle.clear()]. *)
Definition clear : M unit :=
  fun w => Returned tt (emit Cleared (visa_clear (hw w)) w).

(** [_wait_and_clear], with its default delay of 0.5 s: the sleep, then
    the clearing of the device. *)
Definition _wait_and_clear : M unit :=
  sleep 500 ~~
  clear.

(** [l[i] = x] and [l[i]], with Python's negative indices. *)
Fixpoint replace_nth {A : Type} (n : nat) (x : A) (l : list A) : list A :=
  match l, n with
  | [], _ => []
  | _ :: rest, O => x :: rest
  | y :: rest, S n' => y :: replace_nth n' x rest
  end.

Definition index {A : Type} (l : list A) (i : Z) : option nat :=
  let n := Z.of_nat (length l) in
  if (0 <=? i)%Z && (i <? n)%Z then Some (Z.to_nat i)
  else if (- n <=? i)%Z && (i <? 0)%Z then Some (Z.to_nat (n + i))
  else None.

Definition set_item {A : Type} (l : list A) (i : Z) (x : A) : option (list A) :=
  option_map (fun n => replace_nth n x l) (index l i).

Definition get_item {A : Type} (l : list A) (i : Z) : option A :=
  match index l i with
  | Some n => nth_error l n
  | None => None
  end.

(** [chans_left.remove(chan)] on a set kept as a list without repeats. *)
Definition set_remove (chan : Z) (s : list Z) : option (list Z) :=
  if existsb (Z.eqb chan) s then Some (filter (fun c => negb (Z.eqb chan c)) s)
  else None.

Definition lookup (key : string) (d : list (string * Z)) : option Z :=
  option_map snd (find (fun kv => String.eqb (fst kv) key) d).

Definition expected_headers : list string :=
  ["channel"; "out v"; EmptyString; "voltage range"; "current range"].

(** The [while chans_left:] loop of [_get_status]; [fuel] bounds the
    lines read. *)
Fixpoint read_channels (fuel : nat) (chans : Table) (chans_left : list Z)
    : M Table :=
  match chans_left with
  | [] => ret chans
  | _ :: _ =>
      match fuel with
      | O => fun w => Unfinished w
      | S fuel' =>
          line <~ read ;;
          let line := strip line in
          if String.eqb line EmptyString
          then read_channels fuel' chans chans_left
          else
            match split tab line with
            | [chan; v; _; vrange; irange] =>
                match int_ chan with
                | None => raise (IntError chan)
                | Some chan =>
                    match float v with
                    | None => raise (FloatError v)
                    | Some v =>
                        match lookup (strip vrange) voltage_range_status with
                        | None => raise (KeyError (strip vrange))
                        | Some vrange =>
                            let entry := {| status_v := v;
                                            status_vrange := vrange;
                                            status_irange := irange |} in
                            match set_item chans (chan - 1) (Some entry) with
                            | None => raise IndexError
                            | Some chans' =>
                                match set_remove chan chans_left with
                                | None => raise (KeyErrorChan chan)
                                | Some left' =>
                                    read_channels fuel' chans' left'
                                end
                            end
                        end
                    end
                end
            | fields => raise (UnpackError (length fields))
            end
      end
  end.

Definition _get_status (fuel : nat) : M Table :=
  version_line <~ ask "status" ;;
  (if String.prefix "Software Version: " version_line then
     match nth_error (split_str ": " (strip version_line)) 1 with
     | None => raise IndexError
     | Some text =>
         a <~ get_self ;;
         put_self {| version := Some text; _status := _status a;
                     _status_ts := _status_ts a;
                     max_status_age := max_status_age a |} ~~
         print ("QDac - " ++ strip version_line)
     end
   else
     _wait_and_clear ~~
     raise (ValueError ("unrecognized version line: " ++ version_line))) ~~
  header_line <~ read ;;
  let headers := split tab (strip_chars cr_lf (lower header_line)) in
  if negb (if list_eq_dec string_dec headers expected_headers
           then true else false)
  then raise (ValueError ("unrecognized header line: " ++ header_line))
  else
    let chans := map (fun _ => @None ChanStatus) chan_range in
    let chans_left := chan_range in
    chans <~ read_channels fuel chans chans_left ;;
    a <~ get_self ;;
    put_self {| version := version a; _status := Some chans;
                _status_ts := _status_ts a;
                max_status_age := max_status_age a |} ~~
    t <~ now ;;
    a <~ get_self ;;
    put_self {| version := version a; _status := _status a;
                _status_ts := Some t;
                max_status_age := max_status_age a |} ~~
    ret chans.

(** [self.get_status()]: the function added with
    [call_cmd=self._get_status] runs it and hands back its value. *)
Definition get_status (fuel : nat) : M Table := _get_status fuel.

Definition valid_params : list string := ["v"; "vrange"; "irange"].

(** [entry[param]] on an entry [{'v': v, 'vrange': vrange, 'irange':
    irange}]; [None] is the [KeyError]. *)
Definition entry_get (entry : ChanStatus) (param : string) : option Value :=
  if String.eqb param "v" then Some (V (status_v entry))
  else if String.eqb param "vrange" then Some (VRange (status_vrange entry))
  else if String.eqb param "irange" then Some (IRange (status_irange entry))
  else None.

Definition read_state (fuel : nat) (chan : Z) (param : string) : M Value :=
  if negb (in_chan_range chan) then
    raise (ValueError "valid channels are range(1, 49)")
  else if negb (existsb (String.eqb param) valid_params) then
    raise (ValueError "read_state valid params are ('v', 'vrange', 'irange')")
  else
    a <~ get_self ;;
    recent <~ (if Z.eqb (max_status_age a) 0 then ret false
               else
                 t <~ now ;;
                 ts <~ attr "_status_ts" _status_ts ;;
                 ret (t - ts <? 1000000 * max_status_age a)%Z) ;;
    chans <~ (if recent then attr "_status" _status else get_status fuel) ;;
    match get_item chans (chan - 1) with
    | None => raise IndexError
    | Some None => raise (KeyError param)
    | Some (Some entry) =>
        match entry_get entry param with
        | None => raise (KeyError param)
        | Some x => ret x
        end
    end.

(** *** What the instrument sends, read as [_get_status] reads it *)

(** The next [n] lines [self.read()] will return. *)
Fixpoint upcoming (n : nat) (h : HW) : list string :=
  match n with
  | O => []
  | S n' => fst (visa_read h) :: upcoming n' (snd (visa_read h))
  end.

(** The world after the next line has been read. *)
Definition after_read (w : World) : World :=
  emit (ReadLine (fst (visa_read (hw w)))) (snd (visa_read (hw w))) w.

(** The world after the next [n] lines have been read. *)
Fixpoint after_reads (n : nat) (w : World) : World :=
  match n with
  | O => w
  | S n' => after_reads n' (after_read w)
  end.

(** One line as the loop parses it: [Some None] for a line that is empty
    once stripped, [Some (Some (chan, entry))] for a channel line, [None]
    for a line on which the unpacking, [int], [float] or the range lookup
    raises. *)
Definition row (line : string) : option (option (Z * ChanStatus)) :=
  let line := strip line in
  if String.eqb line EmptyString then Some None
  else
    match split tab line with
    | [chan; v; _; vrange; irange] =>
        match int_ chan, float v, lookup (strip vrange) voltage_range_status with
        | Some chan, Some v, Some vrange =>
            Some (Some (chan, {| status_v := v; status_vrange := vrange;
                                 status_irange := irange |}))
        | _, _, _ => None
        end
    | _ => None
    end.

(** The channel lines among [ls], when every line of [ls] parses. *)
Fixpoint rows (ls : list string) : option (list (Z * ChanStatus)) :=
  match ls with
  | [] => Some []
  | l :: rest =>
      match row l, rows rest with
      | Some None, Some rs => Some rs
      | Some (Some r), Some rs => Some (r :: rs)
      | _, _ => None
      end
  end.

(** The table after the entries of the channel lines [rs] have been
    stored, each at the index of its channel. *)
Definition fill (rs : list (Z * ChanStatus)) (chans : Table) : Table :=
  fold_left (fun t r => replace_nth (Z.to_nat (fst r - 1)) (Some (snd r)) t)
            rs chans.

Definition empty_table : Table := map (fun _ => @None ChanStatus) chan_range.

(** The start of a status output that [_get_status] accepts: the reply to
    [status] is a version line that carries a version text, and the next
    line is the header.  The result is the version line, the text, the
    header and the instrument after the header. *)
Definition preamble (h : HW) : option (string * string * string * HW) :=
  let version_line := fst (visa_ask "status" h) in
  let h1 := snd (visa_ask "status" h) in
  let header_line := fst (visa_read h1) in
  if String.prefix "Software Version: " version_line then
    match nth_error (split_str ": " (strip version_line)) 1 with
    | Some text =>
        if list_eq_dec string_dec
             (split tab (strip_chars cr_lf (lower header_line)))
             expected_headers
        then Some (version_line, text, header_line, snd (visa_read h1))
        else None
    | None => None
    end
  else None.

(** The world when the loop of [_get_status] starts: the version is
    kept, its line printed, the header read. *)
Definition started (w : World) (version_line text header_line : string)
    (h2 : HW) : World :=
  {| hw := h2;
     self := {| version := Some text; _status := _status (self w);
                _status_ts := _status_ts (self w);
                max_status_age := max_status_age (self w) |};
     log := log w ++ [Asked "status" version_line;
                      Printed ("QDac - " ++ strip version_line);
                      ReadLine header_line] |}.

(** The world of [read_state] after it has looked at the age of the kept
    status: the clock is read unless [max_status_age] is zero. *)
Definition age_checked (w : World) : World :=
  if Z.eqb (max_status_age (self w)) 0 then w
  else emit (Clock (fst (visa_now (hw w)))) (snd (visa_now (hw w))) w.

(** The world when [_get_status] returns: the table and the time kept. *)
Definition stored (chans : Table) (w : World) : World :=
  {| hw := snd (visa_now (hw w));
     self := {| version := version (self w); _status := Some chans;
                _status_ts := Some (fst (visa_now (hw w)));
                max_status_age := max_status_age (self w) |};
     log := log w ++ [Clock (fst (visa_now (hw w)))] |}.

End Driver.

End QDac.

(** A scripted QDac for the examples: the lines it will send, one per
    [ask] or [read] (nothing but empty lines once they are spent), and a
    clock that [datetime.now()] reads and [time.sleep] advances.
    Clearing the device drops the lines not yet read. *)
Record Script : Type := {
  lines : list string;
  time : Z
}.

Definition next_line (s : Script) : string * Script :=
  match lines s with
  | [] => (EmptyString, s)
  | l :: rest => (l, {| lines := rest; time := time s |})
  end.

#[export] Instance ScriptVisa : QDac.Visa Script := {
  QDac.visa_ask := fun _ s => next_line s;
  QDac.visa_read := next_line;
  QDac.visa_sleep := fun ms s => {| lines := lines s; time := time s + 1000 * Z.of_N ms |};
  QDac.visa_now := fun s => (time s, s);
  QDac.visa_clear := fun s => {| lines := []; time := time s |}
}.

(** [int()] on the decimal integers. *)
Definition int_decimal (s : string) : option Z :=
  option_map Z.of_int (NilZero.int_of_string s).

(** A status output: the version line, the header, an empty line, and one
    line per channel, from channel 48 down to channel 1, each with the
    voltage [v] of its channel. *)
Definition channel_line (v : Z -> Z) (chan : Z) : string :=
  format chan ++ String QDac.tab (format (v chan)
    ++ String QDac.tab (String QDac.tab ("X 1" ++ String QDac.tab "pA"))).

Definition status_output (v : Z -> Z) : list string :=
  ["Software Version: 0.160218" ++ String "013"%char EmptyString;
   "Channel" ++ String QDac.tab ("Out V" ++ String QDac.tab (String QDac.tab
     ("Voltage range" ++ String QDac.tab "Current range")));
   EmptyString]
  ++ map (channel_line v) (rev QDac.chan_range).

(** The channel lines of [status_output] as [_get_status] parses them. *)
Definition status_rows (v : Z -> Z) : list (Z * QDac.ChanStatus (number := Z)) :=
  map (fun chan => (chan, {| QDac.status_v := v chan; QDac.status_vrange := 10%Z;
                             QDac.status_irange := "pA" |}))
      (rev QDac.chan_range).

(** The output that the docstring of [_get_status] shows, up to its
    first channel line, each line as [read] hands it over. *)
Definition docstring_output : list string :=
  ["Software Version: 0.160218" ++ String "013"%char EmptyString;
   "Channel" ++ String QDac.tab ("Out V" ++ String QDac.tab (String QDac.tab
     ("Voltage range" ++ String QDac.tab "Current range")));
   EmptyString;
   "8" ++ String QDac.tab ("  0.000000" ++ String QDac.tab (String QDac.tab
     ("X 1" ++ String QDac.tab (String QDac.tab "pA"))))].

(** A driver object that has read the status of [status_output v] at
    time 0. *)
Definition with_status (v : Z -> Z) : QDac.Attrs (number := Z) :=
  {| QDac.version := Some "0.160218";
     QDac._status := Some (QDac.fill (status_rows v) QDac.empty_table);
     QDac._status_ts := Some 0%Z;
     QDac.max_status_age := 1%Z |}.

Definition world (a : QDac.Attrs (number := Z)) (s : Script) : QDac.World :=
  {| QDac.hw := s; QDac.self := a; QDac.log := [] |}.

(** ** Tactics for running a driver method by hand *)

(** One query or one branch of the method under evaluation. *)
Ltac run_step :=
  match goal with
  | |- context [link_ask ?c ?h] =>
      let r := fresh "r" in
      let h' := fresh "h" in
      let E := fresh "Eask" in
      destruct (link_ask c h) as [r h'] eqn:E; simpl
  | |- context [match decode_flag ?r with _ => _ end] =>
      let E := fresh "Eflag" in
      destruct (decode_flag r) as [[|]|] eqn:E; simpl
  | |- context [match decode_state ?r with _ => _ end] =>
      let E := fresh "Estate" in
      destruct (decode_state r) as [[]|] eqn:E; simpl
  end.

(** The facts a snapshot must satisfy to agree with a finished trace. *)
Ltac agree_facts :=
  repeat match goal with
         | H : Forall _ (_ :: _) |- _ => inversion H; clear H; subst
         | H : Forall _ [] |- _ => clear H
         end;
  simpl in *;
  repeat match goal with
         | H1 : ?d = Some ?a, H2 : ?d = Some ?b |- _ =>
             rewrite H1 in H2; inversion H2; clear H2
         end.

(** Unfolds the gate down to the link. *)
Ltac unfold_gate :=
  unfold _can_start_ramping, is_quenched, ramping_state, in_persistent_mode,
    persistent_switch_heater_enabled, get_mapped, bind, ask, ret, raise.

(** * Properties *)

Lemma RampState_eqb_eq (a b : RampState) : RampState_eqb a b = true <-> a = b.
Proof. destruct a, b; simpl; split; intros H; try reflexivity; discriminate. Qed.

Lemma RampState_eqb_neq (a b : RampState) : RampState_eqb a b = false <-> a <> b.
Proof.
  destruct (RampState_eqb a b) eqn:E.
  - apply RampState_eqb_eq in E. split; [discriminate | contradiction].
  - split; [| reflexivity]. intros _ Hab. apply RampState_eqb_eq in Hab. congruence.
Qed.

Lemma writes_app (t1 t2 : list Event) : writes (t1 ++ t2) = (writes t1 ++ writes t2)%list.
Proof.
  induction t1 as [| e t1 IH]; simpl; [reflexivity |].
  destruct e; simpl; rewrite IH; reflexivity.
Qed.

Section MonadFacts.
Context {HW : Type}.

Lemma bind_done {A B} (m : Prog HW A) (k : A -> Prog HW B) h a h1 t1 :
  m h = Done a h1 t1 -> bind m k h = after t1 (k a h1).
Proof. intros E. unfold bind. rewrite E. reflexivity. Qed.

Lemma bind_raise {A B} (m : Prog HW A) (k : A -> Prog HW B) h e h1 t1 :
  m h = Raise e h1 t1 -> bind m k h = Raise e h1 t1.
Proof. intros E. unfold bind. rewrite E. reflexivity. Qed.

Lemma bind_out_of_fuel {A B} (m : Prog HW A) (k : A -> Prog HW B) h t1 :
  m h = OutOfFuel t1 -> bind m k h = OutOfFuel t1.
Proof. intros E. unfold bind. rewrite E. reflexivity. Qed.

Lemma after_nil {A} (r : Result HW A) : after [] r = r.
Proof. destruct r; reflexivity. Qed.

Lemma trace_of_after {A} t1 (r : Result HW A) :
  trace_of (after t1 r) = (t1 ++ trace_of r)%list.
Proof. destruct r; reflexivity. Qed.

Lemma after_after {A} t1 t2 (r : Result HW A) :
  after t1 (after t2 r) = after (t1 ++ t2) r.
Proof. destruct r; simpl; rewrite ?app_assoc; reflexivity. Qed.

Lemma bind_assoc {A B C} (m : Prog HW A) (f : A -> Prog HW B)
    (g : B -> Prog HW C) (h : HW) :
  bind (bind m f) g h = bind m (fun a => bind (f a) g) h.
Proof.
  unfold bind. destruct (m h) as [a h1 t1 | |]; simpl; try reflexivity.
  destruct (f a h1) as [b h2 t2 | |]; simpl; try reflexivity.
  rewrite after_after. reflexivity.
Qed.

Lemma bind_ext {A B} (m1 m2 : Prog HW A) (k1 k2 : A -> Prog HW B) (h : HW) :
  (forall x, m1 x = m2 x) -> (forall a x, k1 a x = k2 a x) ->
  bind m1 k1 h = bind m2 k2 h.
Proof.
  intros Hm Hk. unfold bind. rewrite Hm.
  destruct (m2 h); try reflexivity. rewrite Hk. reflexivity.
Qed.

Lemma after_done_inv {A} t1 (r : Result HW A) a h tr :
  after t1 r = Done a h tr -> exists t2, r = Done a h t2 /\ tr = (t1 ++ t2)%list.
Proof.
  destruct r; simpl; intros E; inversion E; subst. eexists; split; reflexivity.
Qed.

Lemma bind_done_inv {A B} (m : Prog HW A) (k : A -> Prog HW B) h b h2 tr :
  bind m k h = Done b h2 tr ->
  exists a h1 t1 t2, m h = Done a h1 t1 /\ k a h1 = Done b h2 t2 /\ tr = (t1 ++ t2)%list.
Proof.
  unfold bind. destruct (m h) as [a h1 t1 | |]; try discriminate.
  intros E. apply after_done_inv in E. destruct E as [t2 [E1 E2]].
  exists a, h1, t1, t2. auto.
Qed.
End MonadFacts.

Lemma asks_write_nothing (tr : list Event) :
  forallb is_ask tr = true -> writes tr = [].
Proof.
  induction tr as [| e tr IH]; simpl; [reflexivity |].
  destruct e; simpl; try discriminate. exact IH.
Qed.

Section GateFacts.
Context {HW : Type} {link : Link HW}.
Context {number : Type} {num : PyNumber number}.

(** The gate only asks, whatever its outcome. *)
Lemma gate_asks_only (self : AMI430 number) (h : HW) :
  forallb is_ask (trace_of (_can_start_ramping self h)) = true.
Proof.
  unfold_gate.
  destruct (_persistent_switch self); simpl; repeat run_step; reflexivity.
Qed.

(** Some snapshot agrees with what a finished evaluation has read. *)
Lemma gate_snapshot_exists (self : AMI430 number) (h h' : HW) b tr :
  _can_start_ramping self h = Done b h' tr ->
  exists status, Forall (reads_agree status) tr.
Proof.
  unfold_gate.
  destruct (_persistent_switch self); simpl;
    repeat run_step; intros E; inversion E; subst; clear E;
    eexists (Build_SafetyStatus _ _ _ _);
    repeat constructor; simpl; eassumption.
  Unshelve. all: first [exact false | exact Ramping].
Qed.

(** The value of a finished evaluation is the table's, at every snapshot
    that agrees with what was read. *)
Lemma gate_value (self : AMI430 number) (h h' : HW) b tr status :
  _can_start_ramping self h = Done b h' tr ->
  Forall (reads_agree status) tr ->
  b = canStartRamping status (_persistent_switch self).
Proof.
  unfold_gate.
  destruct (_persistent_switch self); simpl;
    repeat run_step; intros E; inversion E; subst; clear E;
    intros HF; agree_facts; unfold canStartRamping;
    destruct status; simpl in *; subst; reflexivity.
Qed.

(** On an instrument that reports a snapshot the evaluation returns, and
    returns the table's value at that snapshot. *)
Lemma gate_returns (self : AMI430 number) (h : HW) status :
  reports status h ->
  exists h' tr,
    _can_start_ramping self h
    = Done (canStartRamping status (_persistent_switch self)) h' tr.
Proof.
  intros Hrep. pose proof (queried_here h) as Q.
  unfold_gate.
  destruct (_persistent_switch self); simpl; repeat run_step;
    repeat match goal with
           | Qx : queried_from h ?x, Eq : link_ask ?c ?x = (_, _) |- _ =>
               let P := fresh "P" in
               let Qy := fresh "Q" in
               pose proof (Hrep x c Qx) as P; rewrite Eq in P; simpl in P;
               pose proof (queried_next c Qx) as Qy; rewrite Eq in Qy;
               simpl in Qy; clear Eq
           end;
    repeat match goal with
           | H1 : ?d = Some ?a, H2 : ?d = Some ?b |- _ =>
               rewrite H1 in H2; inversion H2; clear H2
           | H1 : ?d = None, H2 : ?d = Some ?b |- _ =>
               rewrite H1 in H2; discriminate H2
           end;
    eexists _, _; f_equal; unfold canStartRamping;
    destruct status; simpl in *; subst; reflexivity.
Qed.

(** Without a persistent switch the gate asks for the quench flag and the
    ramping state, and for nothing else. *)
Lemma gate_queries_without_switch (self : AMI430 number) (h : HW) :
  _persistent_switch self = false ->
  forallb quench_or_state_query (trace_of (_can_start_ramping self h)) = true.
Proof.
  intros Eps. unfold_gate. rewrite Eps. simpl.
  repeat run_step; reflexivity.
Qed.

(** A quench flag that reads true ends the evaluation at once. *)
Lemma gate_quenched (self : AMI430 number) (h : HW) :
  decode_flag (fst (link_ask "QU?" h)) = Some true ->
  _can_start_ramping self h
  = Done false (snd (link_ask "QU?" h)) [Ask "QU?" (fst (link_ask "QU?" h))].
Proof.
  intros E. unfold_gate.
  destruct (link_ask "QU?" h) as [r h1]. simpl in *. rewrite E. reflexivity.
Qed.
End GateFacts.

Section LoopFacts.
Context {HW : Type} {link : Link HW}.

Lemma state_is_run (target : RampState) (h : HW) :
  state_is target h =
  match decode_state (fst (link_ask "STATE?" h)) with
  | Some st => Done (RampState_eqb st target) (snd (link_ask "STATE?" h))
                    [Ask "STATE?" (fst (link_ask "STATE?" h))]
  | None => Raise (KeyError (fst (link_ask "STATE?" h)))
                  (snd (link_ask "STATE?" h))
                  [Ask "STATE?" (fst (link_ask "STATE?" h))]
  end.
Proof.
  unfold state_is, ramping_state, get_mapped, bind, ask, ret, raise.
  destruct (link_ask "STATE?" h) as [r h1]. simpl.
  destruct (decode_state r); reflexivity.
Qed.

Lemma ramping_state_run (h : HW) :
  ramping_state h =
  match decode_state (fst (link_ask "STATE?" h)) with
  | Some st => Done st (snd (link_ask "STATE?" h))
                    [Ask "STATE?" (fst (link_ask "STATE?" h))]
  | None => Raise (KeyError (fst (link_ask "STATE?" h)))
                  (snd (link_ask "STATE?" h))
                  [Ask "STATE?" (fst (link_ask "STATE?" h))]
  end.
Proof.
  unfold ramping_state, get_mapped, bind, ask, ret, raise.
  destruct (link_ask "STATE?" h) as [r h1]. simpl.
  destruct (decode_state r); reflexivity.
Qed.

(** One round of a polling loop whose state is still the awaited one. *)
Lemma wait_again (target : RampState) (fuel : nat) (h : HW) :
  decode_state (poll_reply 0 h) = Some target ->
  while_ (S fuel) (state_is target) (sleep 300) h =
  after [Ask "STATE?" (poll_reply 0 h); Sleep 300]
        (while_ fuel (state_is target) (sleep 300) (poll_step h)).
Proof.
  unfold poll_reply. simpl. intros E.
  unfold bind at 1. rewrite state_is_run, E.
  replace (RampState_eqb target target) with true
    by (symmetry; apply RampState_eqb_eq; reflexivity).
  unfold bind, sleep, poll_step. simpl.
  rewrite after_after. reflexivity.
Qed.

(** The loop ends at the first poll that shows another state. *)
Lemma wait_done (target st : RampState) (k : nat) :
  forall (h : HW) (fuel : nat),
    (forall j, j < k -> decode_state (poll_reply j h) = Some target) ->
    decode_state (poll_reply k h) = Some st ->
    st <> target ->
    k < fuel ->
    while_ fuel (state_is target) (sleep 300) h =
    Done tt (snd (link_ask "STATE?" (poll_hw k h)))
         (poll_trace k h ++ [Ask "STATE?" (poll_reply k h)]).
Proof.
  induction k as [| k IH]; intros h fuel Hbefore Hat Hne Hfuel;
    (destruct fuel as [| fuel]; [lia |]).
  - unfold poll_reply in *. simpl in *.
    unfold bind. rewrite state_is_run, Hat.
    apply RampState_eqb_neq in Hne. rewrite Hne. reflexivity.
  - rewrite wait_again by (apply Hbefore; lia).
    rewrite (IH (poll_step h) fuel); try assumption; try lia.
    + reflexivity.
    + intros j Hj. apply (Hbefore (S j)). lia.
Qed.

(** The loop never ends while every poll shows the awaited state. *)
Lemma wait_forever (target : RampState) (fuel : nat) :
  forall h : HW,
    (forall j, decode_state (poll_reply j h) = Some target) ->
    while_ fuel (state_is target) (sleep 300) h = OutOfFuel (poll_trace fuel h).
Proof.
  induction fuel as [| fuel IH]; intros h Hall; [reflexivity |].
  rewrite wait_again by apply Hall.
  rewrite IH; [reflexivity |].
  intros j. apply (Hall (S j)).
Qed.

(** The loop ends, for any fuel above [k], when the polls are ramping
    states up to the one numbered [k] and that one is not the awaited
    state. *)
Lemma wait_returns (target : RampState) (k : nat) :
  forall (h : HW) (fuel : nat),
    (forall j, j <= k -> exists s, decode_state (poll_reply j h) = Some s) ->
    decode_state (poll_reply k h) <> Some target ->
    k < fuel ->
    exists h' tr, while_ fuel (state_is target) (sleep 300) h = Done tt h' tr.
Proof.
  induction k as [| k IH]; intros h fuel Hdec Hat Hfuel;
    (destruct fuel as [| fuel]; [lia |]);
    destruct (Hdec 0 ltac:(lia)) as [s Es];
    destruct (RampState_eqb s target) eqn:Est.
  - apply RampState_eqb_eq in Est. subst s. contradiction.
  - apply RampState_eqb_neq in Est.
    eexists _, _.
    apply (wait_done (k := 0) (st := s)); auto; try lia; intros j Hj; lia.
  - apply RampState_eqb_eq in Est. subst s.
    rewrite wait_again by exact Es.
    destruct (IH (poll_step h) fuel) as [h' [tr E]]; try lia.
    + intros j Hj. apply (Hdec (S j)). lia.
    + exact Hat.
    + rewrite E. simpl. eexists _, _. reflexivity.
  - apply RampState_eqb_neq in Est.
    eexists _, _.
    apply (wait_done (k := 0) (st := s)); auto; try lia; intros j Hj; lia.
Qed.

(** A loop that has ended has seen the awaited state at every poll but the
    last, and another state at the last. *)
Lemma wait_inv (target : RampState) (fuel : nat) :
  forall (h h' : HW) (u : unit) (tr : list Event),
    while_ fuel (state_is target) (sleep 300) h = Done u h' tr ->
    exists k st,
      k < fuel /\
      (forall j, j < k -> decode_state (poll_reply j h) = Some target) /\
      decode_state (poll_reply k h) = Some st /\ st <> target /\
      h' = snd (link_ask "STATE?" (poll_hw k h)) /\
      tr = (poll_trace k h ++ [Ask "STATE?" (poll_reply k h)])%list.
Proof.
  induction fuel as [| fuel IH]; intros h h' u tr E; [discriminate |].
  destruct (decode_state (poll_reply 0 h)) as [st |] eqn:E0.
  - destruct (RampState_eqb st target) eqn:Est.
    + apply RampState_eqb_eq in Est. subst st.
      rewrite wait_again in E by exact E0.
      apply after_done_inv in E. destruct E as [t2 [E Etr]].
      apply IH in E.
      destruct E as [k [st [Hk [Hbefore [Hat [Hne [Hh Ht]]]]]]].
      exists (S k), st.
      split; [lia |].
      split; [intros [| j] Hj; [exact E0 | apply Hbefore; lia] |].
      split; [exact Hat |].
      split; [exact Hne |].
      split; [exact Hh |].
      subst. reflexivity.
    + exists 0, st. unfold poll_reply in *. simpl in *.
      unfold bind in E. rewrite state_is_run, E0, Est in E.
      simpl in E. inversion E; subst.
      split; [lia |].
      split; [intros j Hj; lia |].
      split; [exact E0 |].
      split; [apply RampState_eqb_neq; exact Est |].
      split; reflexivity.
  - unfold poll_reply in E0. simpl in *.
    unfold bind in E. rewrite state_is_run, E0 in E. discriminate.
Qed.

(** The Ramp Monitor whose loop ends at poll [k]: the final reading
    decides on the pause. *)
Lemma ramp_monitor_run (fuel k : nat) (h : HW) (st st' : RampState) :
  (forall j, j < k ->
     decode_state (poll_reply j (link_sleep 500 h)) = Some Ramping) ->
  decode_state (poll_reply k (link_sleep 500 h)) = Some st ->
  st <> Ramping ->
  k < fuel ->
  decode_state (fst (link_ask "STATE?" (monitor_settled k h))) = Some st' ->
  ramp_monitor fuel h =
  after (monitor_polls k h)
        (match st' with
         | Holding => write "PAUSE"
         | _ => ret tt
         end (snd (link_ask "STATE?" (monitor_settled k h)))).
Proof.
  intros Hbefore Hat Hne Hfuel Hre. unfold ramp_monitor.
  erewrite bind_done by reflexivity.
  erewrite bind_done
    by (apply wait_done with (k := k) (st := st); assumption).
  erewrite bind_done by reflexivity.
  erewrite bind_done
    by (rewrite ramping_state_run; fold (monitor_settled k h);
        rewrite Hre; reflexivity).
  rewrite !after_after. unfold monitor_polls. f_equal.
  simpl. f_equal. rewrite <- !app_assoc. reflexivity.
Qed.
End LoopFacts.

Section HeaterFacts.
Context {HW : Type} {link : Link HW}.

(** The command, the first delay, then the polling loop. *)
Lemma set_heater_run (fuel : nat) (value : bool) (h : HW) :
  _set_persistent_switch_heater fuel value h =
  after [Write (heater_cmd value); Sleep 500]
        (while_ fuel (state_is (transition_state value)) (sleep 300)
                (heater_started value h)).
Proof.
  unfold _set_persistent_switch_heater, heater_started.
  destruct value; unfold bind, write, sleep; simpl;
    rewrite after_after; reflexivity.
Qed.

Lemma poll_trace_writes (k : nat) : forall h : HW, writes (poll_trace k h) = [].
Proof. induction k as [| k IH]; intros h; simpl; auto. Qed.

(** A call that returned wrote the heater command and nothing else. *)
Lemma set_heater_writes (fuel : nat) (value : bool) (h h' : HW) u tr :
  _set_persistent_switch_heater fuel value h = Done u h' tr ->
  writes tr = [heater_cmd value].
Proof.
  rewrite set_heater_run. intros E.
  apply after_done_inv in E. destruct E as [t2 [E Etr]].
  apply wait_inv in E.
  destruct E as [k [st [_ [_ [_ [_ [_ Et2]]]]]]]. subst.
  simpl. rewrite writes_app, poll_trace_writes. reflexivity.
Qed.
End HeaterFacts.

Section RampFacts.
Context {HW : Type} {link : Link HW}.
Context {number : Type} {num : PyNumber number}.

(** The gate has no loop. *)
Lemma gate_never_out_of_fuel (self : AMI430 number) (h : HW) tr :
  _can_start_ramping self h <> OutOfFuel tr.
Proof.
  unfold_gate.
  destruct (_persistent_switch self); simpl; repeat run_step; discriminate.
Qed.

(** With the gate closed, both methods end where the gate ended. *)
Lemma ramp_to_blocked (self : AMI430 number) fuel value (h hg : HW) tg :
  _can_start_ramping self h = Done false hg tg ->
  _ramp_to self fuel value h = Done tt hg tg.
Proof.
  intros Hg. unfold _ramp_to. erewrite bind_done by exact Hg.
  unfold ret. simpl. rewrite app_nil_r. reflexivity.
Qed.

Lemma set_field_blocked (self : AMI430 number) fuel value (h hg : HW) tg :
  _can_start_ramping self h = Done false hg tg ->
  _set_field self fuel value h = Done tt hg tg.
Proof.
  intros Hg. unfold _set_field. erewrite bind_done by exact Hg.
  unfold ret. simpl. rewrite app_nil_r. reflexivity.
Qed.

(** The heater step of the methods is the heater step of the Ramp
    Initiator. *)
Lemma ensure_heater_eq (self : AMI430 number) fuel (h : HW) :
  (if _persistent_switch self then
     e <- persistent_switch_heater_enabled self ;;
     if negb e then persistent_switch_heater_enabled_set self fuel true
     else ret tt
   else ret tt) h =
  (if _persistent_switch self then
     e <- persistent_switch_heater_enabled self ;;
     if e then ret tt else _set_persistent_switch_heater fuel true
   else ret tt) h.
Proof.
  unfold persistent_switch_heater_enabled_set.
  destruct (_persistent_switch self); [| reflexivity].
  apply bind_ext; [reflexivity |]. intros [|] x; reflexivity.
Qed.

(** With the gate open, [_ramp_to] is the Ramp Initiator. *)
Lemma ramp_to_allowed (self : AMI430 number) fuel value (h hg : HW) tg :
  _can_start_ramping self h = Done true hg tg ->
  _ramp_to self fuel value h = after tg (start_ramp self fuel value hg).
Proof.
  intros Hg. unfold _ramp_to. erewrite bind_done by exact Hg. f_equal.
  unfold start_ramp, pause, ramp, target_cmd.
  apply bind_ext; [reflexivity | intros _ h1].
  apply bind_ext; [reflexivity | intros _ h2].
  apply bind_ext; [apply ensure_heater_eq | reflexivity].
Qed.

(** With the gate open, [_set_field] is the Ramp Initiator followed by
    the Ramp Monitor. *)
Lemma set_field_allowed (self : AMI430 number) fuel value (h hg : HW) tg :
  _can_start_ramping self h = Done true hg tg ->
  _set_field self fuel value h =
  after tg ((start_ramp self fuel value ;; ramp_monitor fuel) hg).
Proof.
  intros Hg. unfold _set_field. erewrite bind_done by exact Hg. f_equal.
  unfold start_ramp, ramp_monitor, pause, ramp, target_cmd.
  symmetry.
  rewrite bind_assoc. apply bind_ext; [reflexivity | intros _ h1].
  rewrite bind_assoc. apply bind_ext; [reflexivity | intros _ h2].
  rewrite bind_assoc.
  apply bind_ext; [intros x; symmetry; apply ensure_heater_eq | intros _ h3].
  apply bind_ext; [reflexivity | intros _ h4].
  apply bind_ext; [reflexivity | intros _ h5].
  apply bind_ext; [reflexivity | intros _ h6].
  apply bind_ext; [reflexivity | intros _ h7].
  apply bind_ext; [reflexivity | intros st h8].
  destruct st; reflexivity.
Qed.

(** The read-only gate leaves a read-only instrument as it was. *)
Lemma gate_keeps_read_only_state (self : AMI430 number) (h hg : HW) b tg :
  (forall cmd x, snd (link_ask cmd x) = x) ->
  _can_start_ramping self h = Done b hg tg -> hg = h.
Proof.
  intros Hro. unfold_gate.
  destruct (_persistent_switch self); simpl;
    repeat run_step; intros E; inversion E; subst; clear E;
    repeat match goal with
           | Eq : link_ask ?c ?x = (_, ?y) |- _ =>
               let P := fresh in
               pose proof (Hro c x) as P; rewrite Eq in P; simpl in P;
               clear Eq; subst y
           end; reflexivity.
Qed.

Lemma gate_done_asks (self : AMI430 number) (h hg : HW) b tg :
  _can_start_ramping self h = Done b hg tg -> forallb is_ask tg = true.
Proof.
  intros Hg. pose proof (gate_asks_only self h) as H.
  rewrite Hg in H. exact H.
Qed.

(** The three ways through the Ramp Initiator. *)
Lemma start_ramp_no_switch (self : AMI430 number) fuel value (hg : HW) :
  _persistent_switch self = false ->
  start_ramp self fuel value hg =
  Done tt (link_write "RAMP" (targeted value hg))
       [Write "PAUSE"; Write (target_cmd value); Write "RAMP"].
Proof. intros Eps. unfold start_ramp. rewrite Eps. reflexivity. Qed.

Lemma start_ramp_heater_on (self : AMI430 number) fuel value (hg : HW) :
  _persistent_switch self = true ->
  decode_flag (fst (link_ask "PS?" (targeted value hg))) = Some true ->
  start_ramp self fuel value hg =
  Done tt (link_write "RAMP" (snd (link_ask "PS?" (targeted value hg))))
       [Write "PAUSE"; Write (target_cmd value);
        Ask "PS?" (fst (link_ask "PS?" (targeted value hg))); Write "RAMP"].
Proof.
  intros Eps E. unfold start_ramp, persistent_switch_heater_enabled,
    get_mapped, targeted in *.
  rewrite Eps. unfold bind, write, ask. simpl.
  destruct (link_ask "PS?" _) as [r h3]. simpl in *. rewrite E. reflexivity.
Qed.

Lemma start_ramp_heater_off (self : AMI430 number) fuel value (hg : HW) :
  _persistent_switch self = true ->
  decode_flag (fst (link_ask "PS?" (targeted value hg))) = Some false ->
  start_ramp self fuel value hg =
  after [Write "PAUSE"; Write (target_cmd value);
         Ask "PS?" (fst (link_ask "PS?" (targeted value hg)))]
        ((_set_persistent_switch_heater fuel true ;; write "RAMP")
           (snd (link_ask "PS?" (targeted value hg)))).
Proof.
  intros Eps E. unfold start_ramp, persistent_switch_heater_enabled,
    get_mapped, targeted in *.
  remember (_set_persistent_switch_heater fuel true) as enable eqn:Een.
  rewrite Eps. unfold bind, write, ask. simpl.
  destruct (link_ask "PS?" _) as [r h3]. simpl in *. rewrite E. simpl.
  destruct (enable h3); simpl; rewrite ?app_nil_r; reflexivity.
Qed.

(** The writes of a Ramp Initiator that returned. *)
Lemma start_ramp_writes (self : AMI430 number) fuel value (hg h' : HW) u tr :
  start_ramp self fuel value hg = Done u h' tr ->
  writes tr = ramp_writes value (heater_needed self (targeted value hg)) /\
  exists before, tr = (before ++ [Write "RAMP"])%list.
Proof.
  unfold heater_needed, ramp_writes.
  destruct (_persistent_switch self) eqn:Eps; simpl.
  - destruct (decode_flag (fst (link_ask "PS?" (targeted value hg))))
      as [[|] |] eqn:E.
    + rewrite start_ramp_heater_on by assumption.
      intros R. inversion R; subst. split; [reflexivity |].
      eexists [_; _; _]. reflexivity.
    + rewrite start_ramp_heater_off by assumption.
      intros R. apply after_done_inv in R. destruct R as [t2 [R Etr]].
      apply bind_done_inv in R.
      destruct R as [a [h1 [t1 [t3 [R1 [R2 Et2]]]]]].
      apply set_heater_writes in R1. inversion R2; subst.
      split.
      * simpl. rewrite writes_app, R1. reflexivity.
      * eexists ([_; _; _] ++ t1)%list. rewrite <- app_assoc. reflexivity.
    + unfold start_ramp, persistent_switch_heater_enabled, get_mapped,
        targeted in *.
      rewrite Eps. unfold bind, write, ask. simpl.
      destruct (link_ask "PS?" _) as [r h3]. simpl in *. rewrite E.
      discriminate.
  - rewrite start_ramp_no_switch by assumption.
    intros R. inversion R; subst. split; [reflexivity |].
    eexists [_; _]. reflexivity.
Qed.

(** Whatever [_ramp_to] did with the gate open, [_set_field] did the
    same and, when that returned, ran the Ramp Monitor next. *)
Lemma set_field_after_ramp_to (self : AMI430 number) fuel value (h hg : HW) tg :
  _can_start_ramping self h = Done true hg tg ->
  _set_field self fuel value h =
  match _ramp_to self fuel value h with
  | Done _ h' tr => after tr (ramp_monitor fuel h')
  | Raise e h' tr => Raise e h' tr
  | OutOfFuel tr => OutOfFuel tr
  end.
Proof.
  intros Hg.
  erewrite set_field_allowed by exact Hg. erewrite ramp_to_allowed by exact Hg.
  unfold bind.
  destruct (start_ramp self fuel value hg); simpl; try reflexivity.
  rewrite after_after. reflexivity.
Qed.
End RampFacts.

(** * The claims of the specification *)

Section Claims.
Context {HW : Type} {link : Link HW}.
Context {number : Type} {num : PyNumber number}.

(** C1: on an instrument that reports a snapshot, [_can_start_ramping]
    returns the decision table of the specification at that snapshot, with
    [persistentSwitchPresent] the driver's [_persistent_switch]: quenched
    gives false; else a persistent switch in persistent mode gives false;
    else Ramping gives true exactly when there is no persistent switch or
    the heater is enabled; else Holding, Paused and AtZeroCurrent give true;
    the other six states give false.  On any instrument, an evaluation
    that returned has only asked queries, some snapshot agrees with the
    replies it read, and its value is the table's at every snapshot that
    agrees with them. *)
Theorem can_start_ramping_is_decision_table (self : AMI430 number) (h : HW) :
  (forall status,
      reports status h ->
      exists h' tr,
        _can_start_ramping self h
        = Done (canStartRamping status (_persistent_switch self)) h' tr) /\
  (forall b h' tr,
      _can_start_ramping self h = Done b h' tr ->
      forallb is_ask tr = true /\
      (exists status, Forall (reads_agree status) tr) /\
      (forall status, Forall (reads_agree status) tr ->
                      b = canStartRamping status (_persistent_switch self))).
Proof.
  split.
  - intros status Hrep. exact (gate_returns self Hrep).
  - intros b h' tr Hg. split; [exact (gate_done_asks self h Hg) |].
    split; [exact (gate_snapshot_exists self h Hg) |].
    intros status Hagree. exact (gate_value self h Hg Hagree).
Qed.

(** C2: when the Safety Gate evaluates to false, [_set_field] and
    [_ramp_to] return, for every target, with the outcome of the gate's
    evaluation: the events are the gate's queries, no command is written,
    and an instrument whose queries change nothing is left as it was. *)
Theorem blocked_ramp_writes_nothing
    (self : AMI430 number) (fuel : nat) (value : number) (h hg : HW)
    (tg : list Event) :
  _can_start_ramping self h = Done false hg tg ->
  _set_field self fuel value h = Done tt hg tg /\
  _ramp_to self fuel value h = Done tt hg tg /\
  writes tg = [] /\
  forallb is_ask tg = true /\
  ((forall cmd x, snd (link_ask cmd x) = x) -> hg = h).
Proof.
  intros Hg.
  split; [apply set_field_blocked; exact Hg |].
  split; [apply ramp_to_blocked; exact Hg |].
  split; [apply asks_write_nothing; exact (gate_done_asks self h Hg) |].
  split; [exact (gate_done_asks self h Hg) |].
  intros Hro. exact (gate_keeps_read_only_state self h Hro Hg).
Qed.

(** C3: when the Safety Gate allows the ramp, [_ramp_to] returns after
    writing PAUSE, then the target, then RAMP when there is no persistent
    switch or the heater reads enabled.  When a switch is present and the
    heater reads not enabled, the heater-enable sequence (PS 1, a 0.5 s
    sleep and the polls of the state) runs between the target and RAMP,
    and the call returns once a poll within the fuel shows a state other
    than heating switch.  The events are exactly these, in this order; a
    call that returned has written exactly the commands of
    [ramp_writes], and [_set_field] has produced the same events before
    its monitor starts (and has ended as [_ramp_to] did when that did not
    return). *)
Theorem ramp_initiator_write_order
    (self : AMI430 number) (fuel : nat) (value : number) (h hg : HW)
    (tg : list Event) :
  _can_start_ramping self h = Done true hg tg ->
  let h2 := targeted value hg in
  let reply := fst (link_ask "PS?" h2) in
  let h0 := heater_started true (snd (link_ask "PS?" h2)) in
  (_persistent_switch self = false ->
   _ramp_to self fuel value h =
   Done tt (link_write "RAMP" h2)
        (tg ++ [Write "PAUSE"; Write (target_cmd value); Write "RAMP"])) /\
  (_persistent_switch self = true -> decode_flag reply = Some true ->
   _ramp_to self fuel value h =
   Done tt (link_write "RAMP" (snd (link_ask "PS?" h2)))
        (tg ++ [Write "PAUSE"; Write (target_cmd value); Ask "PS?" reply;
                Write "RAMP"])) /\
  (_persistent_switch self = true -> decode_flag reply = Some false ->
   forall (k : nat) (st : RampState),
     (forall j, j < k ->
        decode_state (poll_reply j h0) = Some HeatingSwitch) ->
     decode_state (poll_reply k h0) = Some st ->
     st <> HeatingSwitch ->
     k < fuel ->
     _ramp_to self fuel value h =
     Done tt (link_write "RAMP" (snd (link_ask "STATE?" (poll_hw k h0))))
          (tg ++ [Write "PAUSE"; Write (target_cmd value); Ask "PS?" reply;
                  Write "PS 1"; Sleep 500]
              ++ poll_trace k h0
              ++ [Ask "STATE?" (poll_reply k h0); Write "RAMP"])) /\
  match _ramp_to self fuel value h with
  | Done _ h' tr =>
      writes tr = ramp_writes value (heater_needed self h2) /\
      _set_field self fuel value h = after tr (ramp_monitor fuel h')
  | Raise e h' tr => _set_field self fuel value h = Raise e h' tr
  | OutOfFuel tr => _set_field self fuel value h = OutOfFuel tr
  end.
Proof.
  intros Hg h2 reply h0.
  split; [| split; [| split]].
  - intros Eps. erewrite ramp_to_allowed by exact Hg.
    rewrite start_ramp_no_switch by exact Eps. reflexivity.
  - intros Eps Eon. erewrite ramp_to_allowed by exact Hg.
    rewrite start_ramp_heater_on by assumption. reflexivity.
  - intros Eps Eoff k st Hbefore Hat Hne Hfuel.
    erewrite ramp_to_allowed by exact Hg.
    rewrite start_ramp_heater_off by assumption.
    fold h2. fold reply.
    erewrite bind_done.
    2: { rewrite set_heater_run. fold h0.
         rewrite (wait_done (target := HeatingSwitch) (st := st) (k := k))
           by assumption.
         reflexivity. }
    unfold write. simpl. rewrite <- !app_assoc. reflexivity.
  - pose proof (set_field_after_ramp_to self fuel value h Hg) as Hs.
    destruct (_ramp_to self fuel value h) as [u h' tr | e h' tr | tr] eqn:Er;
      [| exact Hs | exact Hs].
    split; [| exact Hs].
    erewrite ramp_to_allowed in Er by exact Hg.
    apply after_done_inv in Er. destruct Er as [t2 [Er Etr]].
    apply start_ramp_writes in Er. destruct Er as [Ew _].
    subst tr. rewrite writes_app.
    rewrite (asks_write_nothing _ (gate_done_asks self h Hg)). exact Ew.
Qed.

(** C4: for every target and every instrument, [_set_field] does what
    [_ramp_to] does, up to the last event of [_ramp_to].  When the gate
    allowed the ramp and [_ramp_to] returned, that last event is the RAMP
    command, and [_set_field] goes on with the Ramp Monitor from there;
    in every other case the two outcomes are the same. *)
Theorem blocking_matches_non_blocking
    (self : AMI430 number) (fuel : nat) (value : number) (h : HW) :
  match _can_start_ramping self h, _ramp_to self fuel value h with
  | Done true _ _, Done _ h' tr =>
      (exists before, tr = (before ++ [Write "RAMP"])%list) /\
      _set_field self fuel value h = after tr (ramp_monitor fuel h')
  | _, r => _set_field self fuel value h = r
  end.
Proof.
  destruct (_can_start_ramping self h) as [[|] hg tg | e hg tg | tg] eqn:Hg.
  - pose proof (set_field_after_ramp_to self fuel value h Hg) as Hs.
    pose proof (ramp_to_allowed self fuel value h Hg) as Hr.
    destruct (_ramp_to self fuel value h) as [u h' tr | |] eqn:Er;
      try exact Hs.
    split; [| exact Hs].
    symmetry in Hr. apply after_done_inv in Hr. destruct Hr as [t2 [Hr Etr]].
    apply start_ramp_writes in Hr. destruct Hr as [_ [before Eb]].
    exists (tg ++ before)%list. subst. rewrite app_assoc. reflexivity.
  - rewrite (ramp_to_blocked self fuel value h Hg).
    apply (set_field_blocked self fuel value h Hg).
  - unfold _set_field, _ramp_to.
    rewrite !(bind_raise _ _ _ Hg). reflexivity.
  - exfalso. exact (gate_never_out_of_fuel self h Hg).
Qed.

(** C5: a target whose magnitude exceeds the field rating, the product of
    the coil constant and the current rating, is refused by both public
    operations with [OutOfRange] before anything is asked or written. *)
Theorem out_of_range_target_is_rejected
    (coil_constant current_rating current_ramp_limit : number)
    (persistent_switch : bool) (fuel : nat) (target : number) (h : HW) :
  let self := init coil_constant current_rating current_ramp_limit
                   persistent_switch in
  _field_rating self = mul coil_constant current_rating /\
  (ltb (_field_rating self) (abs target) = true ->
   field_set self fuel target h = Raise OutOfRange h [] /\
   ramp_to self fuel target h = Raise OutOfRange h []).
Proof.
  intros self. split; [reflexivity |].
  intros Habove. apply abs_above in Habove.
  unfold field_set, ramp_to, field_vals, Numbers.
  rewrite Habove. split; reflexivity.
Qed.

(** C6, amended: in [_set_field], once RAMP is written, the monitor
    sleeps 0.5 s and polls [STATE?] every 0.3 s while the state is
    Ramping; at the first other state it sleeps 2 s and reads the state
    again.  The call then returns, and PAUSE is written exactly when that
    reading is Holding.  An end in another state is neither raised nor
    reported: the call returns the value it returns after a success, and
    the reading of the state is its last event. *)
Theorem blocking_ramp_pauses_iff_holding
    (self : AMI430 number) (fuel : nat) (value : number) (h hg h' : HW)
    (tg tr : list Event) (k : nat) (st st' : RampState) :
  _can_start_ramping self h = Done true hg tg ->
  _ramp_to self fuel value h = Done tt h' tr ->
  (forall j, j < k ->
     decode_state (poll_reply j (link_sleep 500 h')) = Some Ramping) ->
  decode_state (poll_reply k (link_sleep 500 h')) = Some st ->
  st <> Ramping ->
  k < fuel ->
  decode_state (fst (link_ask "STATE?" (monitor_settled k h'))) = Some st' ->
  let settled := snd (link_ask "STATE?" (monitor_settled k h')) in
  (st' = Holding ->
   _set_field self fuel value h =
   Done tt (link_write "PAUSE" settled)
        (tr ++ monitor_polls k h' ++ [Write "PAUSE"])) /\
  (st' <> Holding ->
   _set_field self fuel value h =
   Done tt settled (tr ++ monitor_polls k h')) /\
  writes (monitor_polls k h') = [].
Proof.
  intros Hg Er Hbefore Hat Hne Hfuel Hre settled.
  pose proof (set_field_after_ramp_to self fuel value h Hg) as Hs.
  rewrite Er in Hs.
  rewrite (ramp_monitor_run (fuel := fuel) (k := k) (st := st) (st' := st') h')
    in Hs by assumption.
  fold settled in Hs.
  split; [| split].
  - intros ->. rewrite Hs. reflexivity.
  - intros Hnh. rewrite Hs.
    destruct st'; try contradiction; simpl; rewrite ?app_nil_r; reflexivity.
  - unfold monitor_polls. simpl.
    rewrite writes_app, poll_trace_writes. reflexivity.
Qed.

(** C7: [_set_persistent_switch_heater] writes its one heater command,
    waits 0.5 s and polls [STATE?] every 0.3 s.  (1) A call that returned
    wrote that command and no other, and saw the transition state at every
    poll but the last, which showed another state.  (2) When the polls are
    ramping states up to one that is not the transition state, the call
    returns for every fuel above that poll's number.  (3) When every poll
    shows the transition state, the call returns for no fuel: the loop has
    no bound of its own. *)
Theorem set_heater_waits_for_transition (value : bool) (h : HW) :
  let h0 := heater_started value h in
  let transition := transition_state value in
  (forall fuel u h' tr,
      _set_persistent_switch_heater fuel value h = Done u h' tr ->
      writes tr = [heater_cmd value] /\
      exists k st,
        (forall j, j < k -> decode_state (poll_reply j h0) = Some transition) /\
        decode_state (poll_reply k h0) = Some st /\ st <> transition /\
        tr = ([Write (heater_cmd value); Sleep 500] ++ poll_trace k h0
                ++ [Ask "STATE?" (poll_reply k h0)])%list) /\
  (forall k,
      (forall j, j <= k -> exists s, decode_state (poll_reply j h0) = Some s) ->
      decode_state (poll_reply k h0) <> Some transition ->
      forall fuel, k < fuel ->
      exists h' tr, _set_persistent_switch_heater fuel value h = Done tt h' tr) /\
  ((forall j, decode_state (poll_reply j h0) = Some transition) ->
   forall fuel,
     _set_persistent_switch_heater fuel value h =
     OutOfFuel ([Write (heater_cmd value); Sleep 500] ++ poll_trace fuel h0)).
Proof.
  intros h0 transition. split; [| split].
  - intros fuel u h' tr E. split; [exact (set_heater_writes _ _ _ E) |].
    rewrite set_heater_run in E.
    apply after_done_inv in E. destruct E as [t2 [E Etr]].
    apply wait_inv in E.
    destruct E as [k [st [_ [Hbefore [Hat [Hne [_ Et2]]]]]]].
    exists k, st. subst. auto.
  - intros k Hdec Hat fuel Hfuel.
    destruct (wait_returns (target := transition) (k := k) h0 Hdec Hat Hfuel)
      as [h' [tr E]].
    rewrite set_heater_run. fold h0. fold transition. rewrite E.
    simpl. eexists _, _. reflexivity.
  - intros Hall fuel.
    rewrite set_heater_run. fold h0. fold transition.
    rewrite wait_forever by exact Hall. reflexivity.
Qed.

(** C10: a quench flag that reads true ends [_can_start_ramping] with
    false after that one query.  Without a persistent switch every query
    of an evaluation asks for the quench flag or the ramping state, and
    two evaluations that returned, read by snapshots equal in those two
    facts, returned the same value. *)
Theorem gate_short_circuits :
  (forall (self : AMI430 number) (h : HW),
      decode_flag (fst (link_ask "QU?" h)) = Some true ->
      _can_start_ramping self h =
      Done false (snd (link_ask "QU?" h))
           [Ask "QU?" (fst (link_ask "QU?" h))]) /\
  (forall (self : AMI430 number) (h : HW),
      _persistent_switch self = false ->
      forallb quench_or_state_query (trace_of (_can_start_ramping self h))
      = true) /\
  (forall (self1 self2 : AMI430 number) (h1 h2 h1' h2' : HW) b1 b2 tr1 tr2
          status1 status2,
      _persistent_switch self1 = false ->
      _persistent_switch self2 = false ->
      _can_start_ramping self1 h1 = Done b1 h1' tr1 ->
      _can_start_ramping self2 h2 = Done b2 h2' tr2 ->
      Forall (reads_agree status1) tr1 ->
      Forall (reads_agree status2) tr2 ->
      quenched status1 = quenched status2 ->
      rampState status1 = rampState status2 ->
      b1 = b2).
Proof.
  split; [| split].
  - intros self h Hq. exact (gate_quenched self h Hq).
  - intros self h Eps. exact (gate_queries_without_switch self h Eps).
  - intros self1 self2 h1 h2 h1' h2' b1 b2 tr1 tr2 status1 status2
      Eps1 Eps2 Hg1 Hg2 Ha1 Ha2 Hq Hs.
    rewrite (gate_value self1 h1 Hg1 Ha1), (gate_value self2 h2 Hg2 Ha2).
    unfold canStartRamping. rewrite Eps1, Eps2, Hq, Hs. reflexivity.
Qed.

(** C8, as the code has it: a call of [_set_persistent_switch_heater]
    with [True] that returns has always written PS 1 and slept 0.5 s
    before polling at least once, whatever the heater's state; the ramp
    methods are where a second enable is avoided: with a persistent
    switch whose heater reads enabled, [_ramp_to] and [_set_field] write
    PAUSE, the target and RAMP with no heater command and no sleep in
    between. *)
Theorem heater_enable_is_guarded_by_the_ramp_methods :
  (forall (fuel : nat) (h h' : HW) u tr,
      _set_persistent_switch_heater fuel true h = Done u h' tr ->
      exists k,
        tr = ([Write "PS 1"; Sleep 500]
                ++ poll_trace k (heater_started true h)
                ++ [Ask "STATE?" (poll_reply k (heater_started true h))])%list) /\
  (forall (self : AMI430 number) (fuel : nat) (value : number) (h hg : HW) tg,
      _can_start_ramping self h = Done true hg tg ->
      _persistent_switch self = true ->
      decode_flag (fst (link_ask "PS?" (targeted value hg))) = Some true ->
      let started := link_write "RAMP" (snd (link_ask "PS?" (targeted value hg))) in
      let events := (tg ++ [Write "PAUSE"; Write (target_cmd value);
                            Ask "PS?" (fst (link_ask "PS?" (targeted value hg)));
                            Write "RAMP"])%list in
      _ramp_to self fuel value h = Done tt started events /\
      _set_field self fuel value h = after events (ramp_monitor fuel started)).
Proof.
  split.
  - intros fuel h h' u tr E.
    rewrite set_heater_run in E.
    apply after_done_inv in E. destruct E as [t2 [E Etr]].
    apply wait_inv in E.
    destruct E as [k [st [_ [_ [_ [_ [_ Et2]]]]]]].
    exists k. subst. reflexivity.
  - intros self fuel value h hg tg Hg Eps Eon started events.
    assert (Er : _ramp_to self fuel value h = Done tt started events).
    { erewrite ramp_to_allowed by exact Hg.
      rewrite start_ramp_heater_on by assumption. reflexivity. }
    split; [exact Er |].
    rewrite (set_field_after_ramp_to self fuel value h Hg), Er. reflexivity.
Qed.
End Claims.

(** * The scripted instrument at work *)

(** A script with one entry left answers it at every poll. *)
Lemma sim_poll_stuck (s : Sim) (r : string) (j : nat) :
  sim_state s = [r] -> poll_hw j s = s.
Proof.
  intros E. induction j as [| j IH]; [reflexivity |].
  simpl. unfold poll_step. simpl. unfold sim_ask. simpl. rewrite E. exact IH.
Qed.

Lemma sim_poll_reply_stuck (s : Sim) (r : string) (j : nat) :
  sim_state s = [r] -> poll_reply j s = r.
Proof.
  intros E. unfold poll_reply. rewrite (sim_poll_stuck s j E).
  simpl. unfold sim_ask. simpl. rewrite E. reflexivity.
Qed.

(** Queries leave an instrument with one script entry as it is. *)
Lemma sim_steady (s x : Sim) (r : string) :
  sim_state s = [r] -> queried_from s x -> x = s.
Proof.
  intros E Q. induction Q as [| x cmd Q IH]; [reflexivity |].
  subst x. simpl. unfold sim_ask.
  repeat match goal with
         | |- context [if ?c then _ else _] => destruct c; try reflexivity
         end.
  rewrite E. reflexivity.
Qed.

(** Such an instrument reports the snapshot its replies decode to. *)
Lemma sim_reports (s : Sim) (r : string) (status : SafetyStatus) :
  sim_state s = [r] ->
  decode_flag (sim_qu s) = Some (quenched status) ->
  decode_flag (sim_pers s) = Some (persistentMode status) ->
  decode_flag (sim_ps s) = Some (heaterEnabled status) ->
  decode_state r = Some (rampState status) ->
  reports status s.
Proof.
  intros E Hq Hp Hh Hs x cmd Q.
  apply (sim_steady E) in Q. subst x.
  unfold reads_agree. simpl. unfold sim_ask.
  destruct (cmd =? "QU?") eqn:E1; [exact Hq |].
  destruct (cmd =? "PERS?") eqn:E2; [exact Hp |].
  destruct (cmd =? "PS?") eqn:E3; [exact Hh |].
  destruct (cmd =? "STATE?") eqn:E4; [| exact I].
  apply String.eqb_eq in E4. subst cmd. simpl. rewrite E. exact Hs.
Qed.

(** Scenario B: heater disabled, Holding, a target within the rating. *)
Example scenario_B :
  _ramp_to (magnet true) 3 1%Z (sim "0" "0" "0" ["2"; "9"; "9"; "2"]) =
  Done tt
       {| sim_qu := "0"; sim_pers := "0"; sim_ps := "1"; sim_state := ["2"];
          sim_rate := "0,0" |}
       [Ask "QU?" "0"; Ask "PERS?" "0"; Ask "STATE?" "2";
        Write "PAUSE"; Write "CONF:FIELD:TARG 1";
        Ask "PS?" "0"; Write "PS 1"; Sleep 500;
        Ask "STATE?" "9"; Sleep 300; Ask "STATE?" "9"; Sleep 300;
        Ask "STATE?" "2"; Write "RAMP"].
Proof. reflexivity. Qed.

(** Scenario D: the polls after RAMP show Ramping, Ramping, Holding; the
    call returns after writing PAUSE. *)
Example scenario_D :
  _set_field (magnet false) 3 1%Z (sim "0" "0" "0" ["2"; "1"; "1"; "2"]) =
  Done tt (sim "0" "0" "0" ["2"])
       [Ask "QU?" "0"; Ask "STATE?" "2";
        Write "PAUSE"; Write "CONF:FIELD:TARG 1"; Write "RAMP";
        Sleep 500; Ask "STATE?" "1"; Sleep 300; Ask "STATE?" "1"; Sleep 300;
        Ask "STATE?" "2"; Sleep 2000; Ask "STATE?" "2"; Write "PAUSE"].
Proof. reflexivity. Qed.

(** Scenario E: the polls after RAMP show Ramping, QuenchDetected; the call
    returns, as after a success, and has written no PAUSE after RAMP. *)
Example scenario_E :
  _set_field (magnet false) 3 1%Z (sim "0" "0" "0" ["2"; "1"; "7"]) =
  Done tt (sim "0" "0" "0" ["7"])
       [Ask "QU?" "0"; Ask "STATE?" "2";
        Write "PAUSE"; Write "CONF:FIELD:TARG 1"; Write "RAMP";
        Sleep 500; Ask "STATE?" "1"; Sleep 300; Ask "STATE?" "7";
        Sleep 2000; Ask "STATE?" "7"].
Proof. reflexivity. Qed.

(** A loop cut short: three polls of a heater that never leaves
    HeatingSwitch. *)
Example heater_stuck :
  _set_persistent_switch_heater 3 true (sim "0" "0" "0" ["9"]) =
  OutOfFuel [Write "PS 1"; Sleep 500; Ask "STATE?" "9"; Sleep 300;
             Ask "STATE?" "9"; Sleep 300; Ask "STATE?" "9"; Sleep 300].
Proof. reflexivity. Qed.

(** C6, as the specification states it, fails in its last part: the end
    of a blocking ramp in a state other than Holding is not reported.  On
    the polls Ramping, QuenchDetected, and likewise on Ramping, Paused,
    [_set_field] returns the one value it also returns after the success
    of the polls Ramping, Ramping, Holding (Python's [None]) and raises
    nothing; its last event is the reading of the state, and the success
    differs from the two other runs only by the PAUSE written after that
    reading.  No value and no event hands the final state to the
    caller. *)
Lemma non_holding_end_is_not_reported :
  let start := [Ask "QU?" "0"; Ask "STATE?" "2";
                Write "PAUSE"; Write "CONF:FIELD:TARG 1"; Write "RAMP";
                Sleep 500; Ask "STATE?" "1"; Sleep 300] in
  _set_field (magnet false) 3 1%Z (sim "0" "0" "0" ["2"; "1"; "1"; "2"]) =
    Done tt (sim "0" "0" "0" ["2"])
         (start ++ [Ask "STATE?" "1"; Sleep 300; Ask "STATE?" "2";
                    Sleep 2000; Ask "STATE?" "2"; Write "PAUSE"]) /\
  _set_field (magnet false) 3 1%Z (sim "0" "0" "0" ["2"; "1"; "7"]) =
    Done tt (sim "0" "0" "0" ["7"])
         (start ++ [Ask "STATE?" "7"; Sleep 2000; Ask "STATE?" "7"]) /\
  _set_field (magnet false) 3 1%Z (sim "0" "0" "0" ["2"; "1"; "3"]) =
    Done tt (sim "0" "0" "0" ["3"])
         (start ++ [Ask "STATE?" "3"; Sleep 2000; Ask "STATE?" "3"]) /\
  decode_state "7" = Some QuenchDetected /\
  decode_state "3" = Some Paused.
Proof.
  intros start.
  split; [reflexivity |]. split; [reflexivity |]. split; [reflexivity |].
  split; reflexivity.
Qed.

(** C8, as the specification states it, fails: on an instrument whose
    heater reads enabled after a first [setHeater(true)], a second call,
    with nothing in between, writes PS 1 again, sleeps and polls; it is not
    a call without events. *)
Lemma set_heater_twice_writes_twice :
  let s0 := sim "0" "0" "0" ["2"] in
  let s1 := sim "0" "0" "1" ["2"] in
  _set_persistent_switch_heater 3 true s0 =
    Done tt s1 [Write "PS 1"; Sleep 500; Ask "STATE?" "2"] /\
  persistent_switch_heater_enabled (magnet true) s1 =
    Done true s1 [Ask "PS?" "1"] /\
  _set_persistent_switch_heater 3 true s1 =
    Done tt s1 [Write "PS 1"; Sleep 500; Ask "STATE?" "2"] /\
  trace_of (_set_persistent_switch_heater 3 true s1) <> [] /\
  writes (trace_of ((_set_persistent_switch_heater 3 true ;;
                     _set_persistent_switch_heater 3 true) s0))
  = ["PS 1"; "PS 1"].
Proof.
  intros s0 s1.
  split; [reflexivity |]. split; [reflexivity |]. split; [reflexivity |].
  split; [discriminate | reflexivity].
Qed.

(** C9: the set command carries the rate and the field rating with nothing
    between them.  With ramp rate 1 and field rating 2 (coil constant 1,
    current rating 2) [_set_ramp_rate] writes [CONF:RAMP:RATE:FIELD 1,12];
    the instrument holds the rate 12, and [_get_ramp_rate] reads 12 back,
    not 1.  Rate 1 with field rating 12 and rate 11 with field rating 2
    are written as one and the same command. *)
Theorem ramp_rate_does_not_round_trip :
  let self := init 1%Z 2%Z 1%Z true in
  let s := sim "0" "0" "0" ["2"] in
  (forall (rate : Z) (h : Sim),
      _set_ramp_rate self rate h =
      Done tt
           (link_write ("CONF:RAMP:RATE:FIELD 1," ++ format rate ++ "2") h)
           [Write ("CONF:RAMP:RATE:FIELD 1," ++ format rate ++ "2")]) /\
  trace_of (_set_ramp_rate self 1%Z s) = [Write "CONF:RAMP:RATE:FIELD 1,12"] /\
  (exists s', (_set_ramp_rate self 1%Z ;; _get_ramp_rate) s =
              Done 12%Z s' [Write "CONF:RAMP:RATE:FIELD 1,12";
                            Ask "RAMP:RATE:FIELD:1?" "12"]) /\
  trace_of (_set_ramp_rate (init 1%Z 12%Z 1%Z true) 1%Z s)
  = trace_of (_set_ramp_rate (init 1%Z 2%Z 1%Z true) 11%Z s).
Proof.
  intros self s.
  split; [intros rate h; reflexivity |].
  split; [reflexivity |].
  split; [eexists; reflexivity | reflexivity].
Qed.

(** * The theorems at concrete inputs *)

Lemma can_start_ramping_is_decision_table_witness :
  let s := sim "0" "0" "1" ["1"] in
  let status := {| quenched := false; persistentMode := false;
                   heaterEnabled := true; rampState := Ramping |} in
  let tr := [Ask "QU?" "0"; Ask "PERS?" "0"; Ask "STATE?" "1"; Ask "PS?" "1"] in
  (reports status s /\
   exists h' tr', _can_start_ramping (magnet true) s = Done true h' tr') /\
  (_can_start_ramping (magnet true) s = Done true s tr /\
   forallb is_ask tr = true /\
   (exists status', Forall (reads_agree status') tr) /\
   (forall status', Forall (reads_agree status') tr ->
                    true = canStartRamping status' true)).
Proof.
  intros s status tr.
  assert (Hrep : reports status s)
    by (apply sim_reports with (r := "1"); reflexivity).
  split.
  - split; [exact Hrep |].
    exact (proj1 (can_start_ramping_is_decision_table (magnet true) s)
             status Hrep).
  - split; [reflexivity |].
    exact (proj2 (can_start_ramping_is_decision_table (magnet true) s)
             true s tr eq_refl).
Defined.

Lemma blocked_ramp_writes_nothing_witness :
  let s := sim "1" "0" "0" ["2"] in
  _can_start_ramping (magnet true) s = Done false s [Ask "QU?" "1"] /\
  (_set_field (magnet true) 3 1%Z s = Done tt s [Ask "QU?" "1"] /\
   _ramp_to (magnet true) 3 1%Z s = Done tt s [Ask "QU?" "1"] /\
   writes [Ask "QU?" "1"] = [] /\
   forallb is_ask [Ask "QU?" "1"] = true /\
   ((forall cmd x, snd (link_ask cmd x) = x) -> s = s)).
Proof.
  intros s. split; [reflexivity |].
  apply (blocked_ramp_writes_nothing (magnet true) 3 1%Z s). reflexivity.
Defined.

Lemma ramp_initiator_write_order_witness :
  let s := sim "0" "0" "0" ["2"; "9"; "2"] in
  let h' := {| sim_qu := "0"; sim_pers := "0"; sim_ps := "1";
               sim_state := ["2"]; sim_rate := "0,0" |} in
  let tr := [Ask "QU?" "0"; Ask "PERS?" "0"; Ask "STATE?" "2";
             Write "PAUSE"; Write "CONF:FIELD:TARG 1"; Ask "PS?" "0";
             Write "PS 1"; Sleep 500; Ask "STATE?" "9"; Sleep 300;
             Ask "STATE?" "2"; Write "RAMP"] in
  _can_start_ramping (magnet true) s
  = Done true (sim "0" "0" "0" ["9"; "2"])
         [Ask "QU?" "0"; Ask "PERS?" "0"; Ask "STATE?" "2"] /\
  _ramp_to (magnet true) 3 1%Z s = Done tt h' tr /\
  writes tr = ["PAUSE"; "CONF:FIELD:TARG 1"; "PS 1"; "RAMP"] /\
  _set_field (magnet true) 3 1%Z s = after tr (ramp_monitor 3 h').
Proof.
  intros s h' tr.
  assert (Hg : _can_start_ramping (magnet true) s
               = Done true (sim "0" "0" "0" ["9"; "2"])
                      [Ask "QU?" "0"; Ask "PERS?" "0"; Ask "STATE?" "2"])
    by reflexivity.
  split; [exact Hg |].
  pose proof (ramp_initiator_write_order (magnet true) 3 1%Z s Hg) as H.
  cbv zeta in H. destruct H as [_ [_ [Hoff Hall]]].
  assert (Hbefore : forall j, j < 1 ->
            decode_state
              (poll_reply j (heater_started true
                 (snd (link_ask "PS?" (targeted 1%Z
                    (sim "0" "0" "0" ["9"; "2"]))))))
            = Some HeatingSwitch)
    by (intros [| j] Hj; [reflexivity | lia]).
  assert (Hne : Holding <> HeatingSwitch) by discriminate.
  assert (Hfuel : 1 < 3) by lia.
  pose proof (Hoff eq_refl eq_refl 1 Holding Hbefore eq_refl Hne Hfuel) as Er.
  split; [exact Er |].
  rewrite Er in Hall. exact Hall.
Defined.

Lemma out_of_range_target_is_rejected_witness :
  let s := sim "0" "0" "0" ["2"] in
  ltb (_field_rating (magnet true)) (abs 3%Z) = true /\
  field_set (magnet true) 3 3%Z s = Raise OutOfRange s [] /\
  ramp_to (magnet true) 3 3%Z s = Raise OutOfRange s [].
Proof.
  intros s. split; [reflexivity |].
  apply (out_of_range_target_is_rejected 1%Z 2%Z 1%Z true 3 3%Z s).
  reflexivity.
Defined.

Lemma blocking_ramp_pauses_iff_holding_witness :
  let tg := [Ask "QU?" "0"; Ask "STATE?" "2"] in
  let tr := [Ask "QU?" "0"; Ask "STATE?" "2"; Write "PAUSE";
             Write "CONF:FIELD:TARG 1"; Write "RAMP"] in
  let s := sim "0" "0" "0" ["2"; "1"; "1"; "2"] in
  let started := sim "0" "0" "0" ["1"; "1"; "2"] in
  let s_quench := sim "0" "0" "0" ["2"; "1"; "7"] in
  let started_quench := sim "0" "0" "0" ["1"; "7"] in
  (_ramp_to (magnet false) 3 1%Z s = Done tt started tr /\
   _set_field (magnet false) 3 1%Z s =
   Done tt (sim "0" "0" "0" ["2"])
        (tr ++ monitor_polls 2 started ++ [Write "PAUSE"])) /\
  (_ramp_to (magnet false) 3 1%Z s_quench = Done tt started_quench tr /\
   _set_field (magnet false) 3 1%Z s_quench =
   Done tt (sim "0" "0" "0" ["7"]) (tr ++ monitor_polls 1 started_quench)).
Proof.
  intros tg tr s started s_quench started_quench. split.
  - split; [reflexivity |].
    destruct (blocking_ramp_pauses_iff_holding (magnet false) (fuel := 3) 1%Z s
                (hg := sim "0" "0" "0" ["1"; "1"; "2"]) (h' := started)
                (tg := tg) (tr := tr)
                (k := 2) (st := Holding) (st' := Holding)) as [Hpause _].
    + reflexivity.
    + reflexivity.
    + intros [| [| j]] Hj; [reflexivity | reflexivity | lia].
    + reflexivity.
    + discriminate.
    + lia.
    + reflexivity.
    + exact (Hpause eq_refl).
  - split; [reflexivity |].
    destruct (blocking_ramp_pauses_iff_holding (magnet false) (fuel := 3) 1%Z
                s_quench
                (hg := sim "0" "0" "0" ["1"; "7"]) (h' := started_quench)
                (tg := tg) (tr := tr)
                (k := 1) (st := QuenchDetected) (st' := QuenchDetected))
      as [_ [Hend _]].
    + reflexivity.
    + reflexivity.
    + intros [| j] Hj; [reflexivity | lia].
    + reflexivity.
    + discriminate.
    + lia.
    + reflexivity.
    + apply Hend. discriminate.
Defined.

Lemma set_heater_waits_for_transition_witness :
  (exists h' tr,
      _set_persistent_switch_heater 3 true (sim "0" "0" "0" ["9"; "9"; "2"])
      = Done tt h' tr) /\
  _set_persistent_switch_heater 4 true (sim "0" "0" "0" ["9"])
  = OutOfFuel ([Write "PS 1"; Sleep 500]
                 ++ poll_trace 4 (heater_started true (sim "0" "0" "0" ["9"]))).
Proof.
  split.
  - apply (proj1 (proj2 (set_heater_waits_for_transition
                           true (sim "0" "0" "0" ["9"; "9"; "2"]))) 2).
    + intros [| [| [| j]]] Hj;
        [eexists; reflexivity | eexists; reflexivity | eexists; reflexivity
        | lia].
    + discriminate.
    + lia.
  - apply (proj2 (proj2 (set_heater_waits_for_transition
                           true (sim "0" "0" "0" ["9"])))).
    intros j.
    rewrite sim_poll_reply_stuck with (r := "9") by reflexivity.
    reflexivity.
Defined.

Lemma heater_enable_is_guarded_by_the_ramp_methods_witness :
  let s := sim "0" "0" "1" ["2"] in
  let events := [Ask "QU?" "0"; Ask "PERS?" "0"; Ask "STATE?" "2";
                 Write "PAUSE"; Write "CONF:FIELD:TARG 1"; Ask "PS?" "1";
                 Write "RAMP"] in
  _ramp_to (magnet true) 3 1%Z s = Done tt s events /\
  _set_field (magnet true) 3 1%Z s = after events (ramp_monitor 3 s).
Proof.
  intros s events.
  pose proof (proj2 (heater_enable_is_guarded_by_the_ramp_methods
                       (HW := Sim) (number := Z))
                (magnet true) 3 1%Z s s
                [Ask "QU?" "0"; Ask "PERS?" "0"; Ask "STATE?" "2"]) as H.
  exact (H eq_refl eq_refl eq_refl).
Defined.

Lemma gate_short_circuits_witness :
  let s := sim "1" "0" "0" ["2"] in
  _can_start_ramping (magnet true) s = Done false s [Ask "QU?" "1"].
Proof.
  intros s.
  exact (proj1 (gate_short_circuits (HW := Sim) (number := Z))
           (magnet true) s eq_refl).
Defined.

(** * More properties of the driver *)

Section Outcomes.
Context {HW : Type} {link : Link HW}.
Context {number : Type} {num : PyNumber number}.

(** The writes of a sequence, however it ends. *)
Lemma writes_bind {A B} (m : Prog HW A) (k : A -> Prog HW B) (h : HW) :
  writes (trace_of (bind m k h)) =
  (writes (trace_of (m h))
     ++ match m h with
        | Done a h1 _ => writes (trace_of (k a h1))
        | Raise _ _ _ | OutOfFuel _ => []
        end)%list.
Proof.
  unfold bind. destruct (m h) as [a h1 t1 | e h1 t1 | t1]; simpl;
    rewrite ?app_nil_r; try reflexivity.
  rewrite trace_of_after, writes_app. reflexivity.
Qed.

(** The events of a polling loop are polls and sleeps, however it ends. *)
Lemma wait_polls_only (target : RampState) (fuel : nat) :
  forall h : HW,
    forallb is_poll (trace_of (while_ fuel (state_is target) (sleep 300) h))
    = true.
Proof.
  induction fuel as [| fuel IH]; intros h; [reflexivity |].
  simpl. unfold bind at 1. rewrite state_is_run.
  destruct (decode_state (fst (link_ask "STATE?" h))) as [st |]; [| reflexivity].
  destruct (RampState_eqb st target); [| reflexivity].
  unfold bind, sleep. simpl. rewrite !trace_of_after. simpl. apply IH.
Qed.

Lemma polls_write_nothing (tr : list Event) :
  forallb is_poll tr = true -> writes tr = [].
Proof.
  induction tr as [| e tr IH]; simpl; [reflexivity |].
  destruct e; simpl; try discriminate; intros H;
    apply andb_true_iff in H; apply IH, H.
Qed.

Lemma wait_writes_nothing (target : RampState) (fuel : nat) (h : HW) :
  writes (trace_of (while_ fuel (state_is target) (sleep 300) h)) = [].
Proof. apply polls_write_nothing, wait_polls_only. Qed.

(** The heater command is the one write of the Heater Sequencer, however
    it ends. *)
Lemma set_heater_outcome_writes (fuel : nat) (value : bool) (h : HW) :
  writes (trace_of (_set_persistent_switch_heater fuel value h))
  = [heater_cmd value].
Proof.
  rewrite set_heater_run, trace_of_after, writes_app, wait_writes_nothing.
  reflexivity.
Qed.

(** X1: however a call of [_set_persistent_switch_heater] ends (return,
    exception, or a loop still running), its events are its heater
    command, the 0.5 s sleep, and then only [STATE?] queries and 0.3 s
    sleeps: one command is written, and it is written first. *)
Theorem set_heater_writes_once_in_every_outcome
    (fuel : nat) (value : bool) (h : HW) :
  exists rest,
    trace_of (_set_persistent_switch_heater fuel value h)
    = Write (heater_cmd value) :: Sleep 500 :: rest /\
    forallb is_poll rest = true /\
    writes (trace_of (_set_persistent_switch_heater fuel value h))
    = [heater_cmd value].
Proof.
  rewrite set_heater_outcome_writes.
  rewrite set_heater_run, trace_of_after. simpl.
  eexists. split; [reflexivity |].
  split; [apply wait_polls_only | reflexivity].
Qed.

(** The writes of the Ramp Initiator, however it ends, are the first
    writes of its full sequence. *)
Lemma start_ramp_outcome_writes (self : AMI430 number) fuel value (hg : HW) :
  exists rest,
    ramp_writes value (heater_needed self (targeted value hg))
    = (writes (trace_of (start_ramp self fuel value hg)) ++ rest)%list.
Proof.
  unfold heater_needed, ramp_writes.
  destruct (_persistent_switch self) eqn:Eps; simpl.
  - destruct (decode_flag (fst (link_ask "PS?" (targeted value hg))))
      as [[|] |] eqn:E.
    + rewrite start_ramp_heater_on by assumption. exists []. reflexivity.
    + rewrite start_ramp_heater_off by assumption.
      rewrite trace_of_after, writes_app, writes_bind.
      rewrite set_heater_outcome_writes.
      destruct (_set_persistent_switch_heater fuel true
                  (snd (link_ask "PS?" (targeted value hg))));
        [exists [] | exists ["RAMP"] | exists ["RAMP"]]; reflexivity.
    + exists ["RAMP"].
      unfold start_ramp, persistent_switch_heater_enabled, get_mapped,
        targeted in *.
      rewrite Eps. unfold bind, write, ask. simpl.
      destruct (link_ask "PS?" _) as [r h3]. simpl in *. rewrite E.
      reflexivity.
  - rewrite start_ramp_no_switch by assumption. exists []. reflexivity.
Qed.

(** The Ramp Monitor writes nothing, or PAUSE as its last event. *)
Lemma ramp_monitor_outcome_writes (fuel : nat) (h : HW) :
  exists rest,
    ["PAUSE"] = (writes (trace_of (ramp_monitor fuel h)) ++ rest)%list.
Proof.
  unfold ramp_monitor.
  rewrite writes_bind. unfold sleep at 1 2. simpl.
  rewrite writes_bind, wait_writes_nothing. simpl.
  destruct (while_ fuel (state_is Ramping) (sleep 300) (link_sleep 500 h))
    as [u h1 t1 | |]; try (exists ["PAUSE"]; reflexivity).
  rewrite writes_bind. unfold sleep at 1 2. simpl.
  rewrite writes_bind, ramping_state_run.
  destruct (decode_state _) as [st |]; simpl;
    [| exists ["PAUSE"]; reflexivity].
  destruct st; simpl;
    first [exists ["PAUSE"]; reflexivity | exists []; reflexivity].
Qed.

(** An evaluation of the gate that answered [True] has made the readings
    that permit a ramp. *)
Lemma gate_true_permits (self : AMI430 number) (h hg : HW) tg :
  _can_start_ramping self h = Done true hg tg ->
  permits (_persistent_switch self) tg = true.
Proof.
  unfold_gate.
  destruct (_persistent_switch self); simpl;
    repeat run_step; intros E; inversion E; subst; clear E;
    unfold permits, flag_is, state_in; simpl;
    repeat match goal with
           | H : ?d = Some _ |- context [?d] => rewrite H
           end;
    reflexivity.
Qed.

(** The writes of [_ramp_to] and of [_set_field] once the gate has
    answered. *)
Lemma ramp_to_outcome_writes (self : AMI430 number) fuel value (h : HW) :
  writes (trace_of (_ramp_to self fuel value h)) =
  match _can_start_ramping self h with
  | Done true hg _ => writes (trace_of (start_ramp self fuel value hg))
  | _ => []
  end.
Proof.
  pose proof (gate_asks_only self h) as Hasks.
  destruct (_can_start_ramping self h) as [[|] hg tg | e hg tg | tg] eqn:Hg;
    simpl in Hasks.
  - erewrite ramp_to_allowed by exact Hg.
    rewrite trace_of_after, writes_app, (asks_write_nothing _ Hasks).
    reflexivity.
  - rewrite (ramp_to_blocked self fuel value h Hg). simpl.
    apply asks_write_nothing, Hasks.
  - unfold _ramp_to. rewrite (bind_raise _ _ _ Hg). simpl.
    apply asks_write_nothing, Hasks.
  - exfalso. exact (gate_never_out_of_fuel self h Hg).
Qed.

Lemma set_field_outcome_writes (self : AMI430 number) fuel value (h : HW) :
  writes (trace_of (_set_field self fuel value h)) =
  match _can_start_ramping self h with
  | Done true hg _ =>
      writes (trace_of ((start_ramp self fuel value ;; ramp_monitor fuel) hg))
  | _ => []
  end.
Proof.
  pose proof (gate_asks_only self h) as Hasks.
  destruct (_can_start_ramping self h) as [[|] hg tg | e hg tg | tg] eqn:Hg;
    simpl in Hasks.
  - erewrite set_field_allowed by exact Hg.
    rewrite trace_of_after, writes_app, (asks_write_nothing _ Hasks).
    reflexivity.
  - rewrite (set_field_blocked self fuel value h Hg). simpl.
    apply asks_write_nothing, Hasks.
  - unfold _set_field. rewrite (bind_raise _ _ _ Hg). simpl.
    apply asks_write_nothing, Hasks.
  - exfalso. exact (gate_never_out_of_fuel self h Hg).
Qed.

(** X2: however [_ramp_to] and [_set_field] end, a command is written
    only in a call whose gate evaluation answered [True], after the
    readings that permit a ramp: quench flag false, persistent mode false
    when there is a switch, and a state that is holding, paused, at zero
    current, or ramping with the heater enabled when there is a switch. *)
Theorem commands_only_after_permission
    (self : AMI430 number) (fuel : nat) (value : number) (h : HW) :
  writes (trace_of (_ramp_to self fuel value h)) <> [] \/
  writes (trace_of (_set_field self fuel value h)) <> [] ->
  exists hg tg,
    _can_start_ramping self h = Done true hg tg /\
    permits (_persistent_switch self) tg = true.
Proof.
  rewrite ramp_to_outcome_writes, set_field_outcome_writes.
  destruct (_can_start_ramping self h) as [[|] hg tg | e hg tg | tg] eqn:Hg;
    try (intros [H | H]; contradiction).
  intros _. exists hg, tg. split; [reflexivity |].
  exact (gate_true_permits self h Hg).
Qed.

(** X3: however [_ramp_to] ends, the commands it has written are the
    first commands of PAUSE, target, (PS 1,) RAMP; however [_set_field]
    ends, they are the first commands of that sequence followed by
    PAUSE.  Neither writes anything else, in any other order. *)
Theorem ramp_methods_write_in_order
    (self : AMI430 number) (fuel : nat) (value : number) (h : HW) :
  (exists enable rest,
      ramp_writes value enable
      = (writes (trace_of (_ramp_to self fuel value h)) ++ rest)%list) /\
  (exists enable rest,
      (ramp_writes value enable ++ ["PAUSE"])%list
      = (writes (trace_of (_set_field self fuel value h)) ++ rest)%list).
Proof.
  rewrite ramp_to_outcome_writes, set_field_outcome_writes.
  destruct (_can_start_ramping self h) as [[|] hg tg | e hg tg | tg] eqn:Hg;
    try (split; exists false; eexists; reflexivity).
  destruct (start_ramp_outcome_writes self fuel value hg) as [rest Hrest].
  split.
  - eexists _, rest. exact Hrest.
  - rewrite writes_bind.
    destruct (start_ramp self fuel value hg) as [u h' tr | e h' tr | tr] eqn:Es.
    + destruct (start_ramp_writes self fuel value hg Es) as [Hw _].
      destruct (ramp_monitor_outcome_writes fuel h') as [rest' Hrest'].
      exists (heater_needed self (targeted value hg)), rest'.
      cbn [trace_of]. rewrite Hw, <- app_assoc. f_equal. exact Hrest'.
    + eexists _, (rest ++ ["PAUSE"])%list.
      rewrite app_nil_r, Hrest, <- app_assoc. reflexivity.
    + eexists _, (rest ++ ["PAUSE"])%list.
      rewrite app_nil_r, Hrest, <- app_assoc. reflexivity.
Qed.

(** X4: the queries of [_can_start_ramping], however it ends: QU? first,
    then PERS? when there is a persistent switch, then STATE?, then PS?
    when there is a switch; each at most once, none out of this order. *)
Theorem gate_asks_in_order (self : AMI430 number) (h : HW) :
  In (asked (trace_of (_can_start_ramping self h)))
     (gate_queries (_persistent_switch self)).
Proof.
  unfold_gate. unfold gate_queries.
  destruct (_persistent_switch self); simpl; repeat run_step; simpl; tauto.
Qed.

(** X5: with a persistent switch whose heater reads not enabled, and an
    instrument that shows the state heating switch at every poll after
    PS 1, neither [_ramp_to] nor [_set_field] returns, whatever the fuel;
    PAUSE, the target and PS 1 are written and RAMP never is. *)
Theorem stuck_heater_keeps_the_ramp_from_starting
    (self : AMI430 number) (fuel : nat) (value : number) (h hg : HW)
    (tg : list Event) :
  _can_start_ramping self h = Done true hg tg ->
  _persistent_switch self = true ->
  let reply := fst (link_ask "PS?" (targeted value hg)) in
  let h0 := heater_started true (snd (link_ask "PS?" (targeted value hg))) in
  decode_flag reply = Some false ->
  (forall j, decode_state (poll_reply j h0) = Some HeatingSwitch) ->
  let events := (tg ++ [Write "PAUSE"; Write (target_cmd value);
                        Ask "PS?" reply; Write "PS 1"; Sleep 500]
                    ++ poll_trace fuel h0)%list in
  _ramp_to self fuel value h = OutOfFuel events /\
  _set_field self fuel value h = OutOfFuel events /\
  writes events = ["PAUSE"; target_cmd value; "PS 1"].
Proof.
  intros Hg Eps reply h0 Eoff Hstuck events.
  assert (Er : _ramp_to self fuel value h = OutOfFuel events).
  { erewrite ramp_to_allowed by exact Hg.
    rewrite start_ramp_heater_off by assumption.
    unfold bind. rewrite set_heater_run. fold h0.
    change (transition_state true) with HeatingSwitch.
    rewrite wait_forever by exact Hstuck. simpl.
    reflexivity. }
  split; [exact Er |].
  split.
  - rewrite (set_field_after_ramp_to self fuel value h Hg), Er. reflexivity.
  - unfold events. rewrite !writes_app, poll_trace_writes.
    rewrite (asks_write_nothing _ (gate_done_asks self h Hg)). reflexivity.
Qed.

(** X6: once [_ramp_to] has started a ramp, [_set_field] on an instrument
    that shows the state ramping at every poll does not return, whatever
    the fuel, and writes nothing after RAMP: no PAUSE is sent while the
    instrument ramps. *)
Theorem blocking_ramp_waits_while_ramping
    (self : AMI430 number) (fuel : nat) (value : number) (h hg h' : HW)
    (tg tr : list Event) :
  _can_start_ramping self h = Done true hg tg ->
  _ramp_to self fuel value h = Done tt h' tr ->
  (forall j, decode_state (poll_reply j (link_sleep 500 h')) = Some Ramping) ->
  let events := (tr ++ Sleep 500 :: poll_trace fuel (link_sleep 500 h'))%list in
  _set_field self fuel value h = OutOfFuel events /\
  writes events = writes tr.
Proof.
  intros Hg Er Hramping events. split.
  - rewrite (set_field_after_ramp_to self fuel value h Hg), Er.
    unfold ramp_monitor, bind at 1, sleep at 1. simpl.
    unfold bind at 1. rewrite wait_forever by exact Hramping. reflexivity.
  - unfold events. rewrite writes_app. simpl.
    rewrite poll_trace_writes, app_nil_r. reflexivity.
Qed.

(** X7: when [_ramp_to] enables the heater and returns, RAMP is its last
    event and follows a [STATE?] reply that is not heating switch; all
    the polls before that one showed heating switch.  The events between
    the gate's queries and RAMP are PAUSE, the target, the PS? query,
    PS 1, a 0.5 s sleep and the polls, 0.3 s apart. *)
Theorem ramp_starts_after_the_heater_transition
    (self : AMI430 number) (fuel : nat) (value : number) (h hg h' : HW)
    (tg tr : list Event) (u : unit) :
  _can_start_ramping self h = Done true hg tg ->
  _persistent_switch self = true ->
  let reply := fst (link_ask "PS?" (targeted value hg)) in
  let h0 := heater_started true (snd (link_ask "PS?" (targeted value hg))) in
  decode_flag reply = Some false ->
  _ramp_to self fuel value h = Done u h' tr ->
  exists k st,
    k < fuel /\
    (forall j, j < k -> decode_state (poll_reply j h0) = Some HeatingSwitch) /\
    decode_state (poll_reply k h0) = Some st /\ st <> HeatingSwitch /\
    tr = (tg ++ [Write "PAUSE"; Write (target_cmd value); Ask "PS?" reply;
                 Write "PS 1"; Sleep 500]
             ++ poll_trace k h0
             ++ [Ask "STATE?" (poll_reply k h0); Write "RAMP"])%list.
Proof.
  intros Hg Eps reply h0 Eoff Er.
  erewrite ramp_to_allowed in Er by exact Hg.
  rewrite start_ramp_heater_off in Er by assumption.
  rewrite after_after in Er.
  apply after_done_inv in Er. destruct Er as [t2 [Er Etr]].
  apply bind_done_inv in Er.
  destruct Er as [a [h1 [t1 [t3 [E1 [E2 Et2]]]]]].
  rewrite set_heater_run in E1.
  apply after_done_inv in E1. destruct E1 as [t4 [E1 Et1]].
  apply wait_inv in E1.
  destruct E1 as [k [st [Hk [Hbefore [Hat [Hne [_ Et4]]]]]]].
  exists k, st. inversion E2; subst.
  split; [exact Hk |]. split; [exact Hbefore |].
  split; [exact Hat |]. split; [exact Hne |].
  fold reply. fold h0. simpl. rewrite <- !app_assoc. reflexivity.
Qed.
End Outcomes.

Section RampRate.
Context {HW : Type} {link : Link HW}.
Context {number : Type} {num : PyNumber number}.

Lemma split_no_sep (sep : ascii) (a : string) :
  contains sep a = false -> split sep a = [a].
Proof.
  induction a as [| c a IH]; simpl; [reflexivity |].
  intros H. apply orb_false_iff in H. destruct H as [Hc Ha].
  rewrite Hc, (IH Ha). reflexivity.
Qed.

Lemma split_first (sep : ascii) (a b : string) :
  contains sep a = false ->
  split sep (a ++ String sep b) = a :: split sep b.
Proof.
  induction a as [| c a IH]; simpl.
  - intros _. rewrite Ascii.eqb_refl. reflexivity.
  - intros H. apply orb_false_iff in H. destruct H as [Hc Ha].
    rewrite Hc, (IH Ha). reflexivity.
Qed.

(** X8: [_get_ramp_rate] asks [RAMP:RATE:FIELD:1?] once and writes
    nothing.  Of a reply [a,b] it reads [a] alone, whatever follows the
    first comma, and of a reply without a comma the whole reply: it
    returns [float] of that text, or raises the [ValueError] of [float]
    when the text is no number. *)
Theorem get_ramp_rate_reads_the_first_field (h : HW) (a : string) :
  contains "," a = false ->
  let reply := fst (link_ask "RAMP:RATE:FIELD:1?" h) in
  (reply = a \/ exists b, reply = a ++ String "," b) ->
  _get_ramp_rate h =
  match float a with
  | Some v => Done v (snd (link_ask "RAMP:RATE:FIELD:1?" h))
                   [Ask "RAMP:RATE:FIELD:1?" reply]
  | None => Raise (ValueError a) (snd (link_ask "RAMP:RATE:FIELD:1?" h))
                  [Ask "RAMP:RATE:FIELD:1?" reply]
  end.
Proof.
  intros Ha reply Hreply.
  assert (Hhd : hd EmptyString (split "," reply) = a).
  { destruct Hreply as [-> | [b ->]].
    - rewrite split_no_sep by exact Ha. reflexivity.
    - rewrite split_first by exact Ha. reflexivity. }
  unfold _get_ramp_rate, bind, ask. subst reply.
  destruct (link_ask "RAMP:RATE:FIELD:1?" h) as [r h1]. simpl in *.
  rewrite Hhd. destruct (float a); reflexivity.
Qed.
End RampRate.

Section TwoMagnets.
Context {HWx HWy : Type} {link_x : Link HWx} {link_y : Link HWy}.
Context {number : Type} {num : PyNumber number}.
Variable hypot : number -> number -> number.
Variable radians : number -> number.

Lemma field_get_run {HW : Type} {link : Link HW} (h : HW) :
  field_get h =
  match float (fst (link_ask "FIELD:MAG?" h)) with
  | Some v => Done v (snd (link_ask "FIELD:MAG?" h))
                   [Ask "FIELD:MAG?" (fst (link_ask "FIELD:MAG?" h))]
  | None => Raise (ValueError (fst (link_ask "FIELD:MAG?" h)))
                  (snd (link_ask "FIELD:MAG?" h))
                  [Ask "FIELD:MAG?" (fst (link_ask "FIELD:MAG?" h))]
  end.
Proof.
  unfold field_get, bind, ask.
  destruct (link_ask "FIELD:MAG?" h) as [r h1]. simpl.
  destruct (float r); reflexivity.
Qed.

(** X9: [_set_alpha] of the two-magnet driver sets nothing.  For every
    angle it asks magnet x for its field, then magnet y, and writes no
    command to either; when the reply of x is no number it raises the
    [ValueError] of [float] with magnet y not even asked, and likewise
    for the reply of y; otherwise it returns [None]. *)
Theorem set_alpha_only_reads_the_fields (alpha : number) (hx : HWx) (hy : HWy) :
  let rx := fst (link_ask "FIELD:MAG?" hx) in
  let ry := fst (link_ask "FIELD:MAG?" hy) in
  let hx' := snd (link_ask "FIELD:MAG?" hx) in
  let hy' := snd (link_ask "FIELD:MAG?" hy) in
  _set_alpha hypot radians alpha (hx, hy) =
  match float rx, float ry with
  | None, _ => Raise (ValueError rx) (hx', hy) [Ask "FIELD:MAG?" rx]
  | Some _, None =>
      Raise (ValueError ry) (hx', hy')
            [Ask "FIELD:MAG?" rx; Ask "FIELD:MAG?" ry]
  | Some _, Some _ =>
      Done tt (hx', hy') [Ask "FIELD:MAG?" rx; Ask "FIELD:MAG?" ry]
  end.
Proof.
  intros rx ry hx' hy'.
  unfold _set_alpha, _get_field_2D, bind, on_x, on_y. simpl.
  rewrite (field_get_run hx). fold rx hx'.
  destruct (float rx) as [x |]; [| reflexivity]. simpl.
  rewrite (field_get_run hy). fold ry hy'.
  destruct (float ry) as [y |]; reflexivity.
Qed.
End TwoMagnets.

(** * More theorems at concrete inputs *)

Lemma commands_only_after_permission_witness :
  let s := sim "0" "0" "0" ["2"] in
  (writes (trace_of (_ramp_to (magnet false) 3 1%Z s)) <> [] \/
   writes (trace_of (_set_field (magnet false) 3 1%Z s)) <> []) /\
  exists hg tg,
    _can_start_ramping (magnet false) s = Done true hg tg /\
    permits false tg = true.
Proof.
  intros s.
  assert (H : writes (trace_of (_ramp_to (magnet false) 3 1%Z s)) <> [] \/
              writes (trace_of (_set_field (magnet false) 3 1%Z s)) <> [])
    by (left; vm_compute; discriminate).
  split; [exact H |].
  exact (commands_only_after_permission (magnet false) 3 1%Z s H).
Defined.

Lemma stuck_heater_keeps_the_ramp_from_starting_witness :
  let s := sim "0" "0" "0" ["2"; "9"] in
  let events := [Ask "QU?" "0"; Ask "PERS?" "0"; Ask "STATE?" "2";
                 Write "PAUSE"; Write "CONF:FIELD:TARG 1"; Ask "PS?" "0";
                 Write "PS 1"; Sleep 500;
                 Ask "STATE?" "9"; Sleep 300; Ask "STATE?" "9"; Sleep 300] in
  _ramp_to (magnet true) 2 1%Z s = OutOfFuel events /\
  _set_field (magnet true) 2 1%Z s = OutOfFuel events /\
  writes events = ["PAUSE"; "CONF:FIELD:TARG 1"; "PS 1"].
Proof.
  intros s events.
  assert (Hg : _can_start_ramping (magnet true) s
               = Done true (sim "0" "0" "0" ["9"])
                      [Ask "QU?" "0"; Ask "PERS?" "0"; Ask "STATE?" "2"])
    by reflexivity.
  pose proof (stuck_heater_keeps_the_ramp_from_starting
                (magnet true) 2 1%Z s Hg eq_refl) as H.
  cbv zeta in H. apply H.
  - reflexivity.
  - intros j.
    rewrite sim_poll_reply_stuck with (r := "9") by reflexivity.
    reflexivity.
Defined.

Lemma blocking_ramp_waits_while_ramping_witness :
  let s := sim "0" "0" "0" ["2"; "1"] in
  let tr := [Ask "QU?" "0"; Ask "STATE?" "2"; Write "PAUSE";
             Write "CONF:FIELD:TARG 1"; Write "RAMP"] in
  _ramp_to (magnet false) 2 1%Z s = Done tt (sim "0" "0" "0" ["1"]) tr /\
  _set_field (magnet false) 2 1%Z s
  = OutOfFuel (tr ++ [Sleep 500; Ask "STATE?" "1"; Sleep 300;
                      Ask "STATE?" "1"; Sleep 300]).
Proof.
  intros s tr.
  assert (Hg : _can_start_ramping (magnet false) s
               = Done true (sim "0" "0" "0" ["1"])
                      [Ask "QU?" "0"; Ask "STATE?" "2"])
    by reflexivity.
  assert (Er : _ramp_to (magnet false) 2 1%Z s
               = Done tt (sim "0" "0" "0" ["1"]) tr)
    by reflexivity.
  split; [exact Er |].
  refine (proj1 (blocking_ramp_waits_while_ramping
                   (magnet false) 2 1%Z s Hg Er _)).
  intros j.
  rewrite sim_poll_reply_stuck with (r := "1") by reflexivity.
  reflexivity.
Defined.

Lemma ramp_starts_after_the_heater_transition_witness :
  let s := sim "0" "0" "0" ["2"; "9"; "9"; "2"] in
  exists h' tr k st,
    _ramp_to (magnet true) 3 1%Z s = Done tt h' tr /\
    k < 3 /\ st <> HeatingSwitch /\
    last tr (Sleep 0) = Write "RAMP".
Proof.
  intros s.
  assert (Hg : _can_start_ramping (magnet true) s
               = Done true (sim "0" "0" "0" ["9"; "9"; "2"])
                      [Ask "QU?" "0"; Ask "PERS?" "0"; Ask "STATE?" "2"])
    by reflexivity.
  destruct (ramp_starts_after_the_heater_transition
              (magnet true) 3 1%Z s (u := tt) Hg eq_refl eq_refl eq_refl)
    as [k [st [Hk [_ [_ [Hne Etr]]]]]].
  eexists _, _, k, st.
  split; [reflexivity |]. split; [exact Hk |]. split; [exact Hne |].
  reflexivity.
Defined.

Lemma get_ramp_rate_reads_the_first_field_witness :
  let s := {| sim_qu := "0"; sim_pers := "0"; sim_ps := "0";
              sim_state := ["2"]; sim_rate := "12,5" |} in
  contains "," "12" = false /\
  _get_ramp_rate s = Done 12%Z s [Ask "RAMP:RATE:FIELD:1?" "12,5"].
Proof.
  intros s. split; [reflexivity |].
  refine (get_ramp_rate_reads_the_first_field s (a := "12") eq_refl _).
  right. exists "5". reflexivity.
Defined.

(** * Properties of the QDac status reader *)

Module QDacFacts.
Import QDac.
Local Open Scope qdac_scope.

Section ListFacts.
Context {A : Type}.

Lemma replace_nth_length (n : nat) (x : A) (l : list A) :
  length (replace_nth n x l) = length l.
Proof.
  revert n. induction l as [| y l IH]; intros [| n]; simpl; auto.
Qed.

Lemma replace_nth_same (n : nat) (x : A) (l : list A) :
  n < length l -> nth_error (replace_nth n x l) n = Some x.
Proof.
  revert n. induction l as [| y l IH]; intros [| n] H; simpl in *;
    try lia; [reflexivity | apply IH; lia].
Qed.

Lemma replace_nth_other (n m : nat) (x : A) (l : list A) :
  n <> m -> nth_error (replace_nth n x l) m = nth_error l m.
Proof.
  revert n m. induction l as [| y l IH]; intros [| n] [| m] H; simpl;
    try reflexivity; try congruence.
  apply IH. congruence.
Qed.
End ListFacts.

(** Removing an element from a set kept as a list. *)
Lemma filter_all (p : Z -> bool) (l : list Z) :
  (forall c, In c l -> p c = true) -> filter p l = l.
Proof.
  induction l as [| c l IH]; simpl; intros H; [reflexivity |].
  rewrite (H c (or_introl eq_refl)), IH; [reflexivity |].
  intros c' Hc'. apply H. right. exact Hc'.
Qed.

Lemma filter_permutation (p : Z -> bool) (l l' : list Z) :
  Permutation l l' -> Permutation (filter p l) (filter p l').
Proof.
  induction 1 as [| x l l' _ IH | x y l | l l' l'' _ IH1 _ IH2]; simpl.
  - constructor.
  - destruct (p x); [constructor |]; exact IH.
  - destruct (p x), (p y); try reflexivity. constructor.
  - etransitivity; eassumption.
Qed.

Lemma remove_from_permutation (c : Z) (l left : list Z) :
  NoDup left -> Permutation (c :: l) left ->
  Permutation l (filter (fun c' => negb (Z.eqb c c')) left).
Proof.
  intros Hnd Hperm.
  assert (Hnd' : NoDup (c :: l))
    by (eapply Permutation_NoDup; [symmetry; exact Hperm | exact Hnd]).
  inversion Hnd' as [| c' l' Hnotin Hndl]; subst.
  pose proof (filter_permutation (fun c' => negb (Z.eqb c c')) Hperm) as Hf.
  simpl in Hf. rewrite Z.eqb_refl in Hf. simpl in Hf.
  rewrite filter_all in Hf; [exact Hf |].
  intros c' Hc'. apply negb_true_iff, Z.eqb_neq. intros ->. contradiction.
Qed.

Section StatusFacts.
Context {HW : Type} {visa : Visa HW}.
Context {number : Type} {num : PyNumber number}.
Variable int_ : string -> option Z.

Local Abbreviation World := (@World HW number).
Local Abbreviation Table := (@Table number).
Local Abbreviation Entry := (@ChanStatus number).

(** The loop is over when no channel is left. *)
Lemma read_channels_done (fuel : nat) (chans : Table) (w : World) :
  read_channels int_ fuel chans [] w = Returned chans w.
Proof. destruct fuel; reflexivity. Qed.

(** One turn of the loop, by what the line read parses to. *)
Lemma read_channels_blank (fuel : nat) (chans : Table) c0 left (w : World) :
  row int_ (fst (visa_read (hw w))) = Some None ->
  read_channels int_ (S fuel) chans (c0 :: left) w
  = read_channels int_ fuel chans (c0 :: left) (after_read w).
Proof.
  unfold row, after_read. cbn [read_channels]. unfold bind at 1, read.
  destruct (visa_read (hw w)) as [l h1]. cbn [fst snd].
  destruct (String.eqb (strip l) EmptyString); [reflexivity |].
  destruct (split tab (strip l)) as [| chan [| v [| x [| vr [| ir [|]]]]]];
    try discriminate.
  destruct (int_ chan); [| discriminate].
  destruct (float v); [| discriminate].
  destruct (lookup (strip vr) voltage_range_status); discriminate.
Qed.

Lemma read_channels_row (fuel : nat) (chans : Table) c0 left (w : World) c e :
  row int_ (fst (visa_read (hw w))) = Some (Some (c, e)) ->
  read_channels int_ (S fuel) chans (c0 :: left) w
  = match set_item chans (c - 1) (Some e) with
    | None => Raised IndexError (after_read w)
    | Some chans' =>
        match set_remove c (c0 :: left) with
        | None => Raised (KeyErrorChan c) (after_read w)
        | Some left' => read_channels int_ fuel chans' left' (after_read w)
        end
    end.
Proof.
  unfold row, after_read. cbn [read_channels]. unfold bind at 1, read.
  destruct (visa_read (hw w)) as [l h1]. cbn [fst snd].
  destruct (String.eqb (strip l) EmptyString); [discriminate |].
  destruct (split tab (strip l)) as [| chan [| v [| x [| vr [| ir [|]]]]]];
    try discriminate.
  destruct (int_ chan) as [c' |]; [| discriminate].
  destruct (float v) as [v' |]; [| discriminate].
  destruct (lookup (strip vr) voltage_range_status) as [r |]; [| discriminate].
  intros E. inversion E; subst.
  destruct (set_item chans (c - 1) _); [| reflexivity].
  destruct (set_remove c (c0 :: left)); reflexivity.
Qed.

(** A line that does not parse ends the loop with an exception. *)
Lemma read_channels_bad (fuel : nat) (chans : Table) c0 left (w : World) :
  row int_ (fst (visa_read (hw w))) = None ->
  exists e, read_channels int_ (S fuel) chans (c0 :: left) w
            = Raised e (after_read w).
Proof.
  unfold row, after_read. cbn [read_channels]. unfold bind at 1, read.
  destruct (visa_read (hw w)) as [l h1]. cbn [fst snd].
  destruct (String.eqb (strip l) EmptyString); [discriminate |].
  destruct (split tab (strip l)) as [| chan [| v [| x [| vr [| ir [|]]]]]];
    try (intros _; eexists; reflexivity).
  destruct (int_ chan) as [c' |]; [| intros _; eexists; reflexivity].
  destruct (float v) as [v' |]; [| intros _; eexists; reflexivity].
  destruct (lookup (strip vr) voltage_range_status) as [r |];
    [discriminate | intros _; eexists; reflexivity].
Qed.

Lemma set_item_in_range (chans : Table) (c : Z) (x : option ChanStatus) :
  (1 <= c <= Z.of_nat (length chans))%Z ->
  set_item chans (c - 1) x = Some (replace_nth (Z.to_nat (c - 1)) x chans).
Proof.
  intros H. unfold set_item, index.
  replace ((0 <=? c - 1)%Z && (c - 1 <? Z.of_nat (length chans))%Z) with true;
    [reflexivity |].
  symmetry. apply andb_true_iff. split; [apply Z.leb_le | apply Z.ltb_lt]; lia.
Qed.

Lemma set_remove_in (c : Z) (left : list Z) :
  In c left ->
  set_remove c left = Some (filter (fun c' => negb (Z.eqb c c')) left).
Proof.
  intros H. unfold set_remove.
  replace (existsb (Z.eqb c) left) with true; [reflexivity |].
  symmetry. apply existsb_exists. exists c. split; [exact H | apply Z.eqb_refl].
Qed.

(** The loop on a well-formed output: it returns the table filled with
    the channel lines. *)
Lemma read_channels_fills (n : nat) :
  forall (fuel : nat) (chans : Table) (left : list Z) (w : World) rs,
    rows int_ (upcoming n (hw w)) = Some rs ->
    Permutation (map fst rs) left ->
    NoDup left ->
    (forall c, In c left -> (1 <= c <= Z.of_nat (length chans))%Z) ->
    n <= fuel ->
    exists w',
      read_channels int_ fuel chans left w = Returned (fill rs chans) w' /\
      self w' = self w.
Proof.
  induction n as [| n IH]; intros fuel chans left w rs Hrows Hperm Hnd Hrange Hfuel.
  - cbn in Hrows. inversion Hrows; subst.
    apply Permutation_nil in Hperm. subst.
    exists w. rewrite read_channels_done. split; reflexivity.
  - destruct left as [| c0 left].
    + apply Permutation_sym, Permutation_nil in Hperm.
      destruct rs; [| discriminate].
      exists w. rewrite read_channels_done. split; reflexivity.
    + destruct fuel as [| fuel]; [lia |].
      cbn [upcoming rows] in Hrows.
      destruct (row int_ (fst (visa_read (hw w)))) as [[[c e] |] |] eqn:Erow;
        [| | discriminate].
      * destruct (rows int_ (upcoming n (snd (visa_read (hw w)))))
          as [rs' |] eqn:Erows; [| discriminate].
        inversion Hrows; subst rs. cbn [map fst] in Hperm.
        assert (Hin : In c (c0 :: left))
          by (eapply Permutation_in; [exact Hperm | left; reflexivity]).
        erewrite read_channels_row by exact Erow.
        rewrite set_item_in_range by (apply Hrange; exact Hin).
        rewrite set_remove_in by exact Hin.
        destruct (IH fuel (replace_nth (Z.to_nat (c - 1)) (Some e) chans)
                    (filter (fun c' => negb (Z.eqb c c')) (c0 :: left))
                    (after_read w) rs') as [w' [Hrun Hself]].
        -- exact Erows.
        -- apply remove_from_permutation; assumption.
        -- apply NoDup_filter. exact Hnd.
        -- intros c' Hc'. apply filter_In in Hc'.
           rewrite replace_nth_length. apply Hrange, Hc'.
        -- lia.
        -- exists w'. split; [exact Hrun | exact Hself].
      * destruct (rows int_ (upcoming n (snd (visa_read (hw w)))))
          as [rs' |] eqn:Erows; [| discriminate].
        inversion Hrows; subst rs'.
        rewrite read_channels_blank by exact Erow.
        destruct (IH fuel chans (c0 :: left) (after_read w) rs)
          as [w' [Hrun Hself]]; try assumption; try lia.
        exists w'. split; [exact Hrun | exact Hself].
Qed.

(** The loop never touches the attributes of the driver object, however
    it ends. *)
Lemma read_channels_keeps_self (fuel : nat) :
  forall (chans : Table) (left : list Z) (w : World),
    self (world_of (read_channels int_ fuel chans left w)) = self w.
Proof.
  induction fuel as [| fuel IH]; intros chans left w;
    (destruct left as [| c0 left]; [reflexivity |]); [reflexivity |].
  destruct (row int_ (fst (visa_read (hw w)))) as [[[c e] |] |] eqn:Erow.
  - erewrite read_channels_row by exact Erow.
    destruct (set_item chans (c - 1) (Some e)); [| reflexivity].
    destruct (set_remove c (c0 :: left)); [| reflexivity].
    rewrite IH. reflexivity.
  - rewrite read_channels_blank by exact Erow. rewrite IH. reflexivity.
  - destruct (read_channels_bad fuel chans c0 left w Erow) as [e ->].
    reflexivity.
Qed.

Lemma chan_range_NoDup : NoDup chan_range.
Proof.
  unfold chan_range. generalize (seq_NoDup 48 1).
  induction (seq 1 48) as [| k l IH]; intros H; simpl; [constructor |].
  inversion H; subst. constructor; [| apply IH; assumption].
  intros Hin. apply in_map_iff in Hin. destruct Hin as [k' [Hk Hin]].
  apply Nat2Z.inj in Hk. subst. contradiction.
Qed.

Lemma chan_range_bounds (c : Z) : In c chan_range <-> (1 <= c <= 48)%Z.
Proof.
  unfold chan_range. rewrite in_map_iff. split.
  - intros [k [<- Hk]]. apply in_seq in Hk. lia.
  - intros H. exists (Z.to_nat c). split; [lia |]. apply in_seq. lia.
Qed.

Lemma empty_table_length : length (@empty_table number) = 48.
Proof. reflexivity. Qed.

(** The filled table. *)
Lemma fill_length (rs : list (Z * ChanStatus)) :
  forall t : Table, length (fill rs t) = length t.
Proof.
  unfold fill. induction rs as [| r rs IH]; intros t; simpl; [reflexivity |].
  rewrite IH. apply replace_nth_length.
Qed.

Lemma fill_other (rs : list (Z * ChanStatus)) :
  forall (t : Table) (i : nat),
    (forall r, In r rs -> Z.to_nat (fst r - 1) <> i) ->
    nth_error (fill rs t) i = nth_error t i.
Proof.
  unfold fill. induction rs as [| r rs IH]; intros t i H; simpl; [reflexivity |].
  rewrite IH by (intros r' Hr'; apply H; right; exact Hr').
  apply replace_nth_other. apply H. left. reflexivity.
Qed.

Lemma fill_entry (rs : list (Z * ChanStatus)) :
  forall (t : Table) (c : Z) (e : ChanStatus),
    NoDup (map fst rs) ->
    (forall r, In r rs -> (1 <= fst r <= Z.of_nat (length t))%Z) ->
    In (c, e) rs ->
    nth_error (fill rs t) (Z.to_nat (c - 1)) = Some (Some e).
Proof.
  induction rs as [| r rs IH]; intros t c e Hnd Hrange Hin; [contradiction |].
  inversion Hnd as [| c' l Hnotin Hnd']; subst.
  destruct Hin as [-> | Hin].
  - change (fill ((c, e) :: rs) t)
      with (fill rs (replace_nth (Z.to_nat (c - 1)) (Some e) t)).
    rewrite fill_other.
    + apply replace_nth_same.
      pose proof (Hrange (c, e) (or_introl eq_refl)) as Hc. simpl in Hc. lia.
    + intros r Hr Heq. apply Hnotin. simpl.
      pose proof (Hrange r (or_intror Hr)) as Hr1.
      pose proof (Hrange (c, e) (or_introl eq_refl)) as Hc. simpl in Hc.
      replace c with (fst r) by lia.
      apply in_map. exact Hr.
  - change (fill (r :: rs) t)
      with (fill rs (replace_nth (Z.to_nat (fst r - 1)) (Some (snd r)) t)).
    apply IH; [exact Hnd' | | exact Hin].
    intros r' Hr'. rewrite replace_nth_length. apply Hrange. right. exact Hr'.
Qed.

Lemma get_item_in_range (t : Table) (c : Z) :
  (1 <= c <= Z.of_nat (length t))%Z ->
  get_item t (c - 1) = nth_error t (Z.to_nat (c - 1)).
Proof.
  intros H. unfold get_item, index.
  replace ((0 <=? c - 1)%Z && (c - 1 <? Z.of_nat (length t))%Z) with true;
    [reflexivity |].
  symmetry. apply andb_true_iff. split; [apply Z.leb_le | apply Z.ltb_lt]; lia.
Qed.

(** [_get_status] on an accepted preamble: the loop, then the table and
    the time are kept. *)
Lemma get_status_run (fuel : nat) (w : World) vl text hl h2 :
  preamble (hw w) = Some (vl, text, hl, h2) ->
  _get_status int_ fuel w
  = match read_channels int_ fuel empty_table chan_range
            (started w vl text hl h2) with
    | Returned chans w3 => Returned chans (stored chans w3)
    | Raised e w3 => Raised e w3
    | Unfinished w3 => Unfinished w3
    end.
Proof.
  unfold preamble, _get_status, started, stored. intros H.
  cbv [bind ask get_self put_self print read ret set_self emit now self hw log].
  destruct w as [h a l].
  cbv [bind ask get_self put_self print read ret set_self emit now self hw log] in *.
  destruct (visa_ask "status" h) as [vl' h1]. cbn [fst snd] in H.
  destruct (String.prefix "Software Version: " vl'); [| discriminate].
  destruct (nth_error (split_str ": " (strip vl')) 1) as [text' |];
    [| discriminate].
  destruct (visa_read h1) as [hl' h2']. cbn [fst snd] in H.
  destruct (list_eq_dec string_dec _ expected_headers); [| discriminate].
  inversion H; subst. cbn [negb]. unfold empty_table.
  repeat rewrite <- app_assoc. cbn [app].
  destruct (read_channels _ _ _ _ _) as [T [h3 a3 l3] | |]; [| reflexivity ..].
  destruct (visa_now h3) as [t h4]. reflexivity.
Qed.

(** [_get_status] on anything else raises before the loop. *)
Lemma get_status_refused (fuel : nat) (w : World) :
  preamble (hw w) = None ->
  exists e w', _get_status int_ fuel w = Raised e w' /\
               _status (self w') = _status (self w) /\
               _status_ts (self w') = _status_ts (self w).
Proof.
  unfold preamble, _get_status. intros H.
  cbv [bind ask get_self put_self print read ret set_self emit now self hw log
       _wait_and_clear sleep clear raise].
  destruct w as [h a l].
  cbv [bind ask get_self put_self print read ret set_self emit now self hw log] in *.
  destruct (visa_ask "status" h) as [vl' h1]. cbn [fst snd] in H.
  destruct (String.prefix "Software Version: " vl');
    [| eexists; eexists; split; [reflexivity | split; reflexivity]].
  destruct (nth_error (split_str ": " (strip vl')) 1) as [text' |];
    [| eexists; eexists; split; [reflexivity | split; reflexivity]].
  destruct (visa_read h1) as [hl' h2']. cbn [fst snd] in H.
  destruct (list_eq_dec string_dec _ expected_headers); [discriminate |].
  eexists; eexists; split; [reflexivity | split; reflexivity].
Qed.

Lemma set_remove_inv (c : Z) (left left' : list Z) :
  set_remove c left = Some left' ->
  In c left /\ left' = filter (fun c' => negb (Z.eqb c c')) left.
Proof.
  unfold set_remove. destruct (existsb (Z.eqb c) left) eqn:E; [| discriminate].
  intros H. inversion H; subst. split; [| reflexivity].
  apply existsb_exists in E. destruct E as [c' [Hin Heq]].
  apply Z.eqb_eq in Heq. subst. exact Hin.
Qed.

Lemma cons_filter_permutation (c : Z) (l : list Z) :
  NoDup l -> In c l ->
  Permutation (c :: filter (fun c' => negb (Z.eqb c c')) l) l.
Proof.
  induction l as [| a l IH]; intros Hnd Hin; [contradiction |].
  inversion Hnd as [| a' l' Hnotin Hnd']; subst. simpl.
  destruct (Z.eqb c a) eqn:E; simpl.
  - apply Z.eqb_eq in E. subst a. rewrite filter_all; [reflexivity |].
    intros c' Hc'. apply negb_true_iff, Z.eqb_neq. intros ->. contradiction.
  - apply Z.eqb_neq in E. destruct Hin as [-> | Hin]; [congruence |].
    etransitivity; [apply perm_swap |]. apply perm_skip, IH; assumption.
Qed.

(** What the loop has read when it returns. *)
Lemma read_channels_returned (fuel : nat) :
  forall (chans : Table) (left : list Z) (w w' : World) (T : Table),
    read_channels int_ fuel chans left w = Returned T w' ->
    NoDup left ->
    (forall c, In c left -> (1 <= c <= Z.of_nat (length chans))%Z) ->
    exists n rs,
      n <= fuel /\ rows int_ (upcoming n (hw w)) = Some rs /\
      Permutation (map fst rs) left /\ T = fill rs chans.
Proof.
  induction fuel as [| fuel IH]; intros chans left w w' T Hrun Hnd Hrange.
  - destruct left; [| discriminate]. inversion Hrun; subst.
    exists 0, []. split; [lia |]. split; [reflexivity |].
    split; [constructor | reflexivity].
  - destruct left as [| c0 left].
    + rewrite read_channels_done in Hrun. inversion Hrun; subst.
      exists 0, []. split; [lia |]. split; [reflexivity |].
      split; [constructor | reflexivity].
    + destruct (row int_ (fst (visa_read (hw w)))) as [[[c e] |] |] eqn:Erow.
      * erewrite read_channels_row in Hrun by exact Erow.
        destruct (set_item chans (c - 1) (Some e)) as [chans' |] eqn:Eset;
          [| discriminate].
        destruct (set_remove c (c0 :: left)) as [left' |] eqn:Erem;
          [| discriminate].
        apply set_remove_inv in Erem. destruct Erem as [Hin ->].
        rewrite set_item_in_range in Eset by (apply Hrange; exact Hin).
        inversion Eset; subst chans'.
        destruct (IH _ _ _ _ _ Hrun) as [n [rs [Hn [Hrows [Hperm HT]]]]].
        -- apply NoDup_filter. exact Hnd.
        -- intros c' Hc'. apply filter_In in Hc'.
           rewrite replace_nth_length. apply Hrange, Hc'.
        -- exists (S n), ((c, e) :: rs). split; [lia |]. split; [| split].
           ++ cbn [upcoming rows]. rewrite Erow.
              change (hw (after_read w)) with (snd (visa_read (hw w))) in Hrows.
              rewrite Hrows. reflexivity.
           ++ cbn [map fst]. etransitivity;
                [apply perm_skip; exact Hperm
                | apply cons_filter_permutation; assumption].
           ++ exact HT.
      * rewrite read_channels_blank in Hrun by exact Erow.
        destruct (IH _ _ _ _ _ Hrun Hnd Hrange) as [n [rs [Hn [Hrows [Hperm HT]]]]].
        exists (S n), rs. split; [lia |]. split; [| split; assumption].
        cbn [upcoming rows]. rewrite Erow.
        change (hw (after_read w)) with (snd (visa_read (hw w))) in Hrows.
        rewrite Hrows. reflexivity.
      * destruct (read_channels_bad fuel chans c0 left w Erow) as [e He].
        rewrite He in Hrun. discriminate.
Qed.

Lemma rows_in_range (rs : list (Z * Entry)) :
  Permutation (map fst rs) chan_range ->
  forall r, In r rs ->
            (1 <= fst r <= Z.of_nat (length (@empty_table number)))%Z.
Proof.
  intros Hperm r Hr. rewrite empty_table_length.
  change (Z.of_nat 48) with 48%Z. apply chan_range_bounds.
  eapply Permutation_in; [exact Hperm |]. apply in_map. exact Hr.
Qed.

Lemma filled_entry (rs : list (Z * Entry)) (c : Z) (e : Entry) :
  Permutation (map fst rs) chan_range ->
  In (c, e) rs ->
  get_item (fill rs empty_table) (c - 1) = Some (Some e).
Proof.
  intros Hperm Hin.
  pose proof (rows_in_range rs Hperm (c, e) Hin) as Hc. cbn [fst] in Hc.
  rewrite get_item_in_range by (rewrite fill_length; exact Hc).
  apply fill_entry; [| apply rows_in_range; exact Hperm | exact Hin].
  eapply Permutation_NoDup; [symmetry; exact Hperm | apply chan_range_NoDup].
Qed.

(** X10: when the reply to [status] is a version line, the next line the
    header, and the lines after it parse to one channel line for each of
    the channels 1 to 48, in any order and with empty lines anywhere
    between them, [_get_status] returns the table of 48 entries that has
    the entry of each channel line at the index [chan - 1].  It keeps the
    table in [_status] and the version text in [version]; the clock is
    read once the loop has returned (in the world [w3]), this reading is
    what [_status_ts] keeps, and it is the last event of the call. *)
Theorem get_status_fills_the_table (fuel n : nat) (w : World) vl text hl h2 rs :
  preamble (hw w) = Some (vl, text, hl, h2) ->
  rows int_ (upcoming n h2) = Some rs ->
  Permutation (map fst rs) chan_range ->
  n <= fuel ->
  exists w3 w',
    read_channels int_ fuel empty_table chan_range (started w vl text hl h2)
    = Returned (fill rs empty_table) w3 /\
    _get_status int_ fuel w = Returned (fill rs empty_table) w' /\
    _status (self w') = Some (fill rs empty_table) /\
    _status_ts (self w') = Some (fst (visa_now (hw w3))) /\
    hw w' = snd (visa_now (hw w3)) /\
    log w' = (log w3 ++ [Clock (fst (visa_now (hw w3)))])%list /\
    version (self w') = Some text /\
    max_status_age (self w') = max_status_age (self w) /\
    length (fill rs empty_table) = 48 /\
    forall c e, In (c, e) rs ->
                get_item (fill rs empty_table) (c - 1) = Some (Some e).
Proof.
  intros Hpre Hrows Hperm Hfuel.
  rewrite (get_status_run fuel w Hpre).
  destruct (@read_channels_fills n fuel empty_table chan_range
              (started w vl text hl h2) rs) as [w3 [Hrun Hself]].
  - exact Hrows.
  - exact Hperm.
  - apply chan_range_NoDup.
  - intros c Hc. rewrite empty_table_length. apply chan_range_bounds. exact Hc.
  - exact Hfuel.
  - rewrite Hrun. exists w3, (stored (fill rs empty_table) w3).
    split; [reflexivity |]. split; [reflexivity |]. split; [reflexivity |].
    split; [reflexivity |]. split; [reflexivity |]. split; [reflexivity |].
    split; [cbn [stored self version]; rewrite Hself; reflexivity |].
    split; [cbn [stored self max_status_age]; rewrite Hself; reflexivity |].
    split; [rewrite fill_length; apply empty_table_length |].
    intros c e Hin. apply filled_entry; assumption.
Qed.

(** X11: [_get_status] returns only a complete table: when it returns,
    the reply to [status] was a version line, the next line the header,
    and the lines read after it had exactly one channel line for each of
    the channels 1 to 48; the table returned is the one filled from these
    lines, and none of its 48 entries is the empty dictionary. *)
Theorem get_status_returns_a_complete_table (fuel : nat) (w w' : World)
    (T : Table) :
  _get_status int_ fuel w = Returned T w' ->
  (exists vl text hl h2 n rs,
     preamble (hw w) = Some (vl, text, hl, h2) /\
     n <= fuel /\
     rows int_ (upcoming n h2) = Some rs /\
     Permutation (map fst rs) chan_range /\
     T = fill rs empty_table) /\
  length T = 48 /\
  forall c, (1 <= c <= 48)%Z -> exists e, get_item T (c - 1) = Some (Some e).
Proof.
  intros Hrun.
  destruct (preamble (hw w)) as [[[[vl text] hl] h2] |] eqn:Hpre.
  - rewrite (get_status_run fuel w Hpre) in Hrun.
    destruct (read_channels int_ fuel empty_table chan_range
                (started w vl text hl h2)) as [T' w3 | |] eqn:Eloop;
      try discriminate.
    inversion Hrun; subst T' w'.
    apply read_channels_returned in Eloop.
    + destruct Eloop as [n [rs [Hn [Hrows [Hperm HT]]]]].
      split; [exists vl, text, hl, h2, n, rs; repeat split; assumption |].
      subst T. split; [rewrite fill_length; apply empty_table_length |].
      intros c Hc. apply chan_range_bounds in Hc.
      apply (Permutation_in _ (Permutation_sym Hperm)) in Hc.
      apply in_map_iff in Hc. destruct Hc as [[c' e] [Hfst Hin]].
      cbn [fst] in Hfst. subst c'. exists e. apply filled_entry; assumption.
    + apply chan_range_NoDup.
    + intros c Hc. rewrite empty_table_length. apply chan_range_bounds.
      exact Hc.
  - destruct (get_status_refused fuel w Hpre) as [e [w'' [Hraise _]]].
    rewrite Hraise in Hrun. discriminate.
Qed.

(** X12: [_get_status] changes the kept status only when it returns: if
    it raises (or is still reading) the attributes [_status] and
    [_status_ts] are what they were, and when it returns a table this
    table is in [_status] and the time read last from the clock is in
    [_status_ts]. *)
Theorem get_status_keeps_the_status_unless_it_returns (fuel : nat) (w : World) :
  match _get_status int_ fuel w with
  | Returned T w' =>
      _status (self w') = Some T /\
      exists t, _status_ts (self w') = Some t /\ last (log w') (Clock 0) = Clock t
  | Raised _ w' | Unfinished w' =>
      _status (self w') = _status (self w) /\
      _status_ts (self w') = _status_ts (self w)
  end.
Proof.
  destruct (preamble (hw w)) as [[[[vl text] hl] h2] |] eqn:Hpre.
  - rewrite (get_status_run fuel w Hpre).
    pose proof (read_channels_keeps_self fuel empty_table chan_range
                  (started w vl text hl h2)) as Hself.
    destruct (read_channels int_ fuel empty_table chan_range
                (started w vl text hl h2)) as [T w3 | e w3 | w3];
      cbn [world_of] in Hself.
    + split; [reflexivity |]. eexists. split; [reflexivity |].
      cbn [stored log]. apply last_last.
    + rewrite Hself. split; reflexivity.
    + rewrite Hself. split; reflexivity.
  - destruct (get_status_refused fuel w Hpre) as [e [w' [-> H]]]. exact H.
Qed.

(** The two checks [read_state] makes on its arguments. *)
Lemma in_chan_range_bounds (chan : Z) :
  in_chan_range chan = true <-> (1 <= chan <= 48)%Z.
Proof.
  unfold in_chan_range, num_chans. rewrite andb_true_iff, Z.leb_le, Z.ltb_lt.
  lia.
Qed.

Lemma valid_param_in (param : string) :
  existsb (String.eqb param) valid_params = true <-> In param valid_params.
Proof.
  rewrite existsb_exists. split.
  - intros [p [Hin Heq]]. apply String.eqb_eq in Heq. subst. exact Hin.
  - intros Hin. exists param. split; [exact Hin | apply String.eqb_refl].
Qed.

Lemma entry_get_valid (e : Entry) (param : string) (x : Value) :
  entry_get e param = Some x -> In param valid_params.
Proof.
  unfold entry_get, valid_params.
  destruct (String.eqb param "v") eqn:E1;
    [apply String.eqb_eq in E1; subst; simpl; auto |].
  destruct (String.eqb param "vrange") eqn:E2;
    [apply String.eqb_eq in E2; subst; simpl; auto |].
  destruct (String.eqb param "irange") eqn:E3;
    [apply String.eqb_eq in E3; subst; simpl; auto | discriminate].
Qed.

(** X13: [read_state] with a channel outside 1..48 or with a parameter
    other than ['v'], ['vrange'] and ['irange'] raises a [ValueError]
    before anything else happens: the clock is not read, nothing is sent
    to the instrument, the attributes are untouched. *)
Theorem read_state_rejects_bad_arguments (fuel : nat) (chan : Z)
    (param : string) (w : World) :
  (chan < 1)%Z \/ (48 < chan)%Z \/ ~ In param valid_params ->
  exists msg, read_state int_ fuel chan param w = Raised (ValueError msg) w.
Proof.
  intros H. unfold read_state.
  destruct (in_chan_range chan) eqn:Echan; cbn [negb];
    [| eexists; reflexivity].
  destruct (existsb (String.eqb param) valid_params) eqn:Eparam; cbn [negb];
    [| eexists; reflexivity].
  apply in_chan_range_bounds in Echan. apply valid_param_in in Eparam.
  destruct H as [H | [H | H]]; [lia | lia | contradiction].
Qed.

(** X14: while [_status_ts] has not been set (as after [__init__], which
    does not set it) and [max_status_age] is not zero, [read_state] with
    valid arguments raises an [AttributeError] for [_status_ts]: it has
    read the clock and sent nothing to the instrument. *)
Theorem read_state_before_any_status (fuel : nat) (chan : Z) (param : string)
    (w : World) :
  (1 <= chan <= 48)%Z ->
  In param valid_params ->
  max_status_age (self w) <> 0%Z ->
  _status_ts (self w) = None ->
  read_state int_ fuel chan param w
  = Raised (AttributeError "_status_ts")
           (emit (Clock (fst (visa_now (hw w)))) (snd (visa_now (hw w))) w).
Proof.
  intros Hchan Hparam Hage Hts. unfold read_state.
  apply in_chan_range_bounds in Hchan. apply valid_param_in in Hparam.
  rewrite Hchan, Hparam. cbn [negb].
  apply Z.eqb_neq in Hage.
  cbv [bind get_self now attr ret]. rewrite Hage.
  destruct (visa_now (hw w)) as [t h1]. cbn [fst snd emit self].
  rewrite Hts. reflexivity.
Qed.

(** X15: when the kept status is younger than [max_status_age] seconds,
    [read_state] answers from it: it reads the clock, sends nothing to the
    instrument, leaves the attributes as they are, and returns the value
    under [param] of the kept entry of the channel. *)
Theorem read_state_answers_from_a_recent_status (fuel : nat) (chan : Z)
    (param : string) (w : World) (ts : Z) (T : Table) (e : Entry) (x : Value) :
  (1 <= chan <= 48)%Z ->
  max_status_age (self w) <> 0%Z ->
  _status_ts (self w) = Some ts ->
  _status (self w) = Some T ->
  (fst (visa_now (hw w)) - ts < 1000000 * max_status_age (self w))%Z ->
  get_item T (chan - 1) = Some (Some e) ->
  entry_get e param = Some x ->
  read_state int_ fuel chan param w
  = Returned x (emit (Clock (fst (visa_now (hw w)))) (snd (visa_now (hw w))) w).
Proof.
  intros Hchan Hage Hts HT Hrecent Hitem Hget. unfold read_state.
  pose proof (entry_get_valid _ _ Hget) as Hparam.
  apply in_chan_range_bounds in Hchan. apply valid_param_in in Hparam.
  rewrite Hchan, Hparam. cbn [negb].
  apply Z.eqb_neq in Hage. apply Z.ltb_lt in Hrecent.
  cbv [bind get_self now attr ret]. rewrite Hage.
  destruct (visa_now (hw w)) as [t h1]. cbn [fst snd emit self] in *.
  rewrite Hts, Hrecent.
  change (self (emit (Clock t) h1 w)) with (self w).
  rewrite HT, Hitem, Hget. reflexivity.
Qed.

(** [read_state] when the kept status is too old, or [max_status_age] is
    zero: the status is read anew. *)
Lemma read_state_refresh (fuel : nat) (chan : Z) (param : string) (w : World) :
  (1 <= chan <= 48)%Z ->
  In param valid_params ->
  (max_status_age (self w) = 0%Z \/
   exists ts, _status_ts (self w) = Some ts /\
              (1000000 * max_status_age (self w)
               <= fst (visa_now (hw w)) - ts)%Z) ->
  read_state int_ fuel chan param w
  = match _get_status int_ fuel (age_checked w) with
    | Returned chans w' =>
        match get_item chans (chan - 1) with
        | None => Raised IndexError w'
        | Some None => Raised (KeyError param) w'
        | Some (Some entry) =>
            match entry_get entry param with
            | None => Raised (KeyError param) w'
            | Some x => Returned x w'
            end
        end
    | Raised e w' => Raised e w'
    | Unfinished w' => Unfinished w'
    end.
Proof.
  intros Hchan Hparam Hstale. unfold read_state, age_checked, get_status.
  apply in_chan_range_bounds in Hchan. apply valid_param_in in Hparam.
  rewrite Hchan, Hparam. cbn [negb].
  cbv [bind get_self now attr ret raise].
  destruct (Z.eqb (max_status_age (self w)) 0) eqn:Eage.
  - destruct (_get_status int_ fuel w) as [T w' | |]; [| reflexivity ..].
    destruct (get_item T (chan - 1)) as [[entry |] |]; try reflexivity.
    destruct (entry_get entry param); reflexivity.
  - destruct Hstale as [H0 | [ts [Hts Hold]]];
      [apply Z.eqb_eq in H0; congruence |].
    destruct (visa_now (hw w)) as [t h1]. cbn [fst snd emit self] in *.
    rewrite Hts. apply Z.ltb_ge in Hold. rewrite Hold.
    destruct (_get_status int_ fuel _) as [T w' | |]; [| reflexivity ..].
    destruct (get_item T (chan - 1)) as [[entry |] |]; try reflexivity.
    destruct (entry_get entry param); reflexivity.
Qed.

(** X16: when the kept status is [max_status_age] seconds old or older
    (or [max_status_age] is zero), [read_state] asks the instrument for
    its status and, on a well-formed output, returns the value that the
    line of the channel gives; the new table replaces the kept one. *)
Theorem read_state_returns_the_listed_value (fuel n : nat) (chan : Z)
    (param : string) (w : World) vl text hl h2 rs (e : Entry) (x : Value) :
  (max_status_age (self w) = 0%Z \/
   exists ts, _status_ts (self w) = Some ts /\
              (1000000 * max_status_age (self w)
               <= fst (visa_now (hw w)) - ts)%Z) ->
  preamble (hw (age_checked w)) = Some (vl, text, hl, h2) ->
  rows int_ (upcoming n h2) = Some rs ->
  Permutation (map fst rs) chan_range ->
  n <= fuel ->
  In (chan, e) rs ->
  entry_get e param = Some x ->
  exists w',
    read_state int_ fuel chan param w = Returned x w' /\
    _status (self w') = Some (fill rs empty_table).
Proof.
  intros Hstale Hpre Hrows Hperm Hfuel Hin Hget.
  pose proof (rows_in_range rs Hperm (chan, e) Hin) as Hchan.
  rewrite empty_table_length in Hchan. cbn [fst] in Hchan.
  change (Z.of_nat 48) with 48%Z in Hchan.
  rewrite (@read_state_refresh fuel chan param w Hchan
             (entry_get_valid _ _ Hget) Hstale).
  rewrite (get_status_run fuel (age_checked w) Hpre).
  destruct (@read_channels_fills n fuel empty_table chan_range
              (started (age_checked w) vl text hl h2) rs) as [w3 [Hrun _]].
  - exact Hrows.
  - exact Hperm.
  - apply chan_range_NoDup.
  - intros c Hc. rewrite empty_table_length. apply chan_range_bounds. exact Hc.
  - exact Hfuel.
  - rewrite Hrun, (@filled_entry rs chan e Hperm Hin), Hget.
    eexists. split; reflexivity.
Qed.

(** The loop passes over empty lines. *)
Lemma read_channels_skips (m : nat) :
  forall (fuel : nat) (chans : Table) (c0 : Z) (left : list Z) (w : World),
    Forall (fun l => strip l = EmptyString) (upcoming m (hw w)) ->
    read_channels int_ (m + fuel) chans (c0 :: left) w
    = read_channels int_ fuel chans (c0 :: left) (after_reads m w).
Proof.
  induction m as [| m IH]; intros fuel chans c0 left w Hblank; [reflexivity |].
  cbn [upcoming] in Hblank. inversion Hblank as [| l ls Hl Hls]; subst.
  change (S m + fuel) with (S (m + fuel)).
  rewrite read_channels_blank by (unfold row; rewrite Hl; reflexivity).
  cbn [after_reads]. apply IH. exact Hls.
Qed.

Lemma read_channels_unpack (fuel : nat) (chans : Table) c0 left (w : World) :
  strip (fst (visa_read (hw w))) <> EmptyString ->
  length (split tab (strip (fst (visa_read (hw w))))) <> 5 ->
  read_channels int_ (S fuel) chans (c0 :: left) w
  = Raised (UnpackError (length (split tab (strip (fst (visa_read (hw w)))))))
           (after_read w).
Proof.
  unfold after_read. cbn [read_channels]. unfold bind at 1, read.
  destruct (visa_read (hw w)) as [l h1]. cbn [fst snd]. intros Hl Hcount.
  destruct (String.eqb (strip l) EmptyString) eqn:E;
    [apply String.eqb_eq in E; contradiction |].
  destruct (split tab (strip l)) as [| chan [| v [| x [| vr [| ir [|]]]]]];
    try reflexivity.
  exfalso. apply Hcount. reflexivity.
Qed.

(** X17: when, after the header and any number of empty lines, a line
    comes that does not have five fields between its tabs, [_get_status]
    raises the [ValueError] of the unpacking right after reading this
    line.  (The sample line of the docstring, with two tabs before [pA],
    has six fields.) *)
Theorem status_line_with_wrong_field_count (fuel m : nat) (w : World)
    vl text hl h2 :
  let w2 := after_reads m (started w vl text hl h2) in
  let line := strip (fst (visa_read (hw w2))) in
  preamble (hw w) = Some (vl, text, hl, h2) ->
  Forall (fun l => strip l = EmptyString) (upcoming m h2) ->
  line <> EmptyString ->
  length (split tab line) <> 5 ->
  m < fuel ->
  _get_status int_ fuel w
  = Raised (UnpackError (length (split tab line))) (after_read w2).
Proof.
  intros w2 line Hpre Hblank Hline Hcount Hfuel.
  rewrite (get_status_run fuel w Hpre).
  replace fuel with (m + S (fuel - S m)) by lia.
  change chan_range with (1%Z :: map Z.of_nat (seq 2 47)).
  rewrite read_channels_skips by exact Hblank.
  fold w2. rewrite read_channels_unpack by assumption. reflexivity.
Qed.

(** Stripping a text that ends in white space. *)
Lemma rstrip_of_lstrip (p : ascii -> bool) (s : string) :
  rstrip_by p (lstrip_by p s) = EmptyString -> rstrip_by p s = EmptyString.
Proof.
  induction s as [| c s IH]; [reflexivity |]. cbn [lstrip_by].
  destruct (p c) eqn:E; [| exact (fun H => H)].
  intros H. cbn [rstrip_by]. rewrite (IH H), E. reflexivity.
Qed.

Lemma rstrip_app_blank (p : ascii -> bool) (s t : string) :
  rstrip_by p t = EmptyString -> rstrip_by p (s ++ t) = rstrip_by p s.
Proof.
  intros H. induction s as [| c s IH]; [exact H |].
  cbn [append rstrip_by]. rewrite IH. reflexivity.
Qed.

(** X18: a version line with nothing but white space after
    [Software Version: ] makes [_get_status] raise an [IndexError] (the
    stripped line has no [': '] left to split at), not the [ValueError]
    of an unrecognized version line: nothing is printed, the driver
    neither waits nor clears the device, and the header is not read. *)
Theorem version_line_without_a_version (fuel : nat) (w : World) (ws : string) :
  fst (visa_ask "status" (hw w)) = "Software Version: " ++ ws ->
  strip ws = EmptyString ->
  _get_status int_ fuel w
  = Raised IndexError
           (emit (Asked "status" ("Software Version: " ++ ws))
                 (snd (visa_ask "status" (hw w))) w).
Proof.
  intros Hline Hws. unfold _get_status. unfold bind at 1 2, ask.
  destruct (visa_ask "status" (hw w)) as [vl h1]. cbn [fst snd] in *. subst vl.
  change (String.prefix "Software Version: " ("Software Version: " ++ ws))
    with (String.prefix EmptyString ws).
  replace (String.prefix EmptyString ws) with true by (destruct ws; reflexivity).
  assert (Hstrip : strip ("Software Version: " ++ ws) = "Software Version:").
  { unfold strip.
    change (lstrip_by is_space ("Software Version: " ++ ws))
      with ("Software Version: " ++ ws).
    rewrite rstrip_app_blank by (apply rstrip_of_lstrip; exact Hws).
    reflexivity. }
  rewrite Hstrip. reflexivity.
Qed.
(** X19: a reply to [status] that does not start with
    [Software Version: ] makes [_get_status] sleep 0.5 s, clear the
    device and raise the [ValueError] that carries the reply; nothing is
    printed, the header is not read, and the attributes of the driver
    are what they were. *)
Theorem unrecognized_version_line_is_cleared (fuel : nat) (w : World) :
  let line := fst (visa_ask "status" (hw w)) in
  let h1 := snd (visa_ask "status" (hw w)) in
  String.prefix "Software Version: " line = false ->
  _get_status int_ fuel w
  = Raised (ValueError ("unrecognized version line: " ++ line))
           {| hw := visa_clear (visa_sleep 500 h1);
              self := self w;
              log := (log w ++ [Asked "status" line; Slept 500; Cleared])%list |}.
Proof.
  intros line h1 Hline. subst line h1. unfold _get_status.
  cbv [bind ask _wait_and_clear sleep clear raise emit self hw log].
  destruct w as [h a l]. cbn [hw self log] in *.
  destruct (visa_ask "status" h) as [vl h1]. cbn [fst snd] in *.
  rewrite Hline. rewrite <- !app_assoc. reflexivity.
Qed.

End StatusFacts.

(** ** The theorems on the scripted QDac *)

Lemma get_status_fills_the_table_witness :
  let w := world fresh {| lines := status_output (fun c => c); time := 5 |} in
  let T := fill (status_rows (fun c => c)) empty_table in
  exists w',
    _get_status int_decimal 49 w = Returned T w' /\
    _status (self w') = Some T /\
    _status_ts (self w') = Some 5%Z /\
    last (log w') (Clock 0) = Clock 5 /\
    version (self w') = Some "0.160218" /\
    length T = 48 /\
    forall c e, In (c, e) (status_rows (fun c => c)) ->
                get_item T (c - 1) = Some (Some e).
Proof.
  intros w T.
  assert (Hperm : Permutation (map fst (status_rows (fun c => c))) chan_range).
  { change (Permutation (rev chan_range) chan_range).
    apply Permutation_sym, Permutation_rev. }
  destruct (@get_status_fills_the_table Script ScriptVisa Z PyInt int_decimal
              49 49 w _ _ _ _ (status_rows (fun c => c))
              eq_refl eq_refl Hperm (le_n 49))
    as [w3 [w' [Hloop [Hrun [Hst [Hts [_ [Hlog [Hv [_ [Hlen Hget]]]]]]]]]]].
  assert (Hnow : fst (visa_now (hw w3)) = 5%Z).
  { apply (f_equal world_of) in Hloop. cbn [world_of] in Hloop.
    rewrite <- Hloop. vm_compute. reflexivity. }
  rewrite Hnow in Hts, Hlog.
  exists w'. split; [exact Hrun |]. split; [exact Hst |].
  split; [exact Hts |].
  split; [rewrite Hlog; apply last_last |].
  split; [exact Hv |]. split; [exact Hlen | exact Hget].
Defined.

Lemma get_status_returns_a_complete_table_witness :
  let w := world fresh {| lines := status_output (fun c => c); time := 5 |} in
  let T := fill (status_rows (fun c => c)) empty_table in
  let r := _get_status int_decimal 49 w in
  r = Returned T (world_of r) /\
  length T = 48 /\
  forall c, (1 <= c <= 48)%Z -> exists e, get_item T (c - 1) = Some (Some e).
Proof.
  intros w T r.
  assert (E : r = Returned T (world_of r)) by (vm_compute; reflexivity).
  split; [exact E |].
  exact (proj2 (@get_status_returns_a_complete_table Script ScriptVisa Z PyInt
                  int_decimal 49 w (world_of r) T E)).
Defined.

Lemma read_state_rejects_bad_arguments_witness :
  let w := world fresh {| lines := status_output (fun c => c); time := 5 |} in
  ((49 < 1)%Z \/ (48 < 49)%Z \/ ~ In "v" valid_params) /\
  exists msg, read_state int_decimal 49 49 "v" w = Raised (ValueError msg) w.
Proof.
  intros w.
  assert (H : (49 < 1)%Z \/ (48 < 49)%Z \/ ~ In "v" valid_params)
    by (right; left; lia).
  split; [exact H |].
  exact (@read_state_rejects_bad_arguments Script ScriptVisa Z PyInt
           int_decimal 49 49 "v" w H).
Defined.

Lemma read_state_before_any_status_witness :
  let s := {| lines := status_output (fun c => c); time := 5 |} in
  read_state int_decimal 49 1 "v" (world fresh s)
  = Raised (AttributeError "_status_ts")
           {| hw := s; self := fresh; log := [Clock 5] |}.
Proof.
  intros s.
  assert (Hchan : (1 <= 1 <= 48)%Z) by lia.
  assert (Hage : max_status_age (@fresh Z) <> 0%Z) by discriminate.
  exact (@read_state_before_any_status Script ScriptVisa Z PyInt int_decimal
           49 1 "v" (world fresh s) Hchan (or_introl eq_refl) Hage eq_refl).
Defined.

Lemma read_state_answers_from_a_recent_status_witness :
  let s := {| lines := []; time := 999999 |} in
  let a := with_status (fun c => c) in
  read_state int_decimal 0 7 "v" (world a s)
  = Returned (V 7%Z) {| hw := s; self := a; log := [Clock 999999] |}.
Proof.
  intros s a.
  assert (Hchan : (1 <= 7 <= 48)%Z) by lia.
  assert (Hage : max_status_age a <> 0%Z) by discriminate.
  assert (Hrecent : (999999 - 0 < 1000000 * 1)%Z) by lia.
  exact (@read_state_answers_from_a_recent_status Script ScriptVisa Z PyInt
           int_decimal 0 7 "v" (world a s) 0%Z
           (fill (status_rows (fun c => c)) empty_table)
           {| status_v := 7%Z; status_vrange := 10%Z; status_irange := "pA" |}
           (V 7%Z) Hchan Hage eq_refl eq_refl Hrecent eq_refl eq_refl).
Defined.

Lemma read_state_returns_the_listed_value_witness :
  let s := {| lines := status_output (fun c => 2 * c)%Z; time := 1000000 |} in
  let w := world (with_status (fun c => c)) s in
  exists w',
    read_state int_decimal 49 7 "v" w = Returned (V 14%Z) w' /\
    _status (self w')
    = Some (fill (status_rows (fun c => 2 * c)%Z) empty_table).
Proof.
  intros s w.
  assert (Hstale : max_status_age (self w) = 0%Z \/
                   exists ts, _status_ts (self w) = Some ts /\
                              (1000000 * max_status_age (self w)
                               <= fst (visa_now (hw w)) - ts)%Z)
    by (right; exists 0%Z; split; [reflexivity | vm_compute; discriminate]).
  assert (Hperm : Permutation (map fst (status_rows (fun c => 2 * c)%Z))
                    chan_range).
  { change (Permutation (rev chan_range) chan_range).
    apply Permutation_sym, Permutation_rev. }
  assert (Hin : In (7%Z, {| status_v := 14%Z; status_vrange := 10%Z;
                            status_irange := "pA" |})
                   (status_rows (fun c => 2 * c)%Z)).
  { apply in_map_iff. exists 7%Z. split; [reflexivity |].
    apply in_rev. rewrite rev_involutive. apply chan_range_bounds. lia. }
  exact (@read_state_returns_the_listed_value Script ScriptVisa Z PyInt
           int_decimal 49 49 7 "v" w _ _ _ _
           (status_rows (fun c => 2 * c)%Z) _ (V 14%Z)
           Hstale eq_refl eq_refl Hperm (le_n 49) Hin eq_refl).
Defined.

Lemma status_line_with_wrong_field_count_witness :
  let w := world fresh {| lines := docstring_output; time := 5 |} in
  exists w', _get_status int_decimal 2 w = Raised (UnpackError 6) w'.
Proof.
  intros w. eexists.
  refine (@status_line_with_wrong_field_count Script ScriptVisa Z PyInt
            int_decimal 2 1 w _ _ _ _ eq_refl _ _ _ _).
  - repeat constructor.
  - discriminate.
  - vm_compute. discriminate.
  - lia.
Defined.

Lemma version_line_without_a_version_witness :
  let s := {| lines := ["Software Version: " ++ String "013"%char EmptyString];
              time := 5 |} in
  _get_status int_decimal 49 (world fresh s)
  = Raised IndexError
           {| hw := {| lines := []; time := 5 |}; self := fresh;
              log := [Asked "status"
                        ("Software Version: " ++ String "013"%char EmptyString)] |}.
Proof.
  intros s.
  exact (@version_line_without_a_version Script ScriptVisa Z PyInt int_decimal
           49 (world fresh s) (String "013"%char EmptyString) eq_refl eq_refl).
Defined.

Lemma unrecognized_version_line_is_cleared_witness :
  let s := {| lines := ["QDac ready"; "Channel"]; time := 5 |} in
  _get_status int_decimal 49 (world fresh s)
  = Raised (ValueError "unrecognized version line: QDac ready")
           {| hw := {| lines := []; time := 500005 |}; self := fresh;
              log := [Asked "status" "QDac ready"; Slept 500; Cleared] |}.
Proof.
  intros s.
  exact (@unrecognized_version_line_is_cleared Script ScriptVisa Z PyInt
           int_decimal 49 (world fresh s) eq_refl).
Defined.

End QDacFacts.
